(** * go-turbo-cachesrv: the artifact store and its HTTP handlers

    A shallow embedding of [main.go]: the filesystem-backed artifact store
    ([FileSystemStorage]), the bearer-token gate with its logging response
    writer ([handleAuth], [loggingResponseWriter]) and the protocol handlers.

    The Go standard library and the operating system are modelled as far as
    the program observes them: [filepath.Join], the [os] calls on a directory
    tree, [encoding/json] on a document type, and the [net/http] response
    writer.  The directory tree is that of one Linux file system as the
    process of the Dockerfile sees it: files and directories, the limits on
    the length of a name and of a path, no links, and no permissions (the
    server runs as root).  Everything is executable. *)

From Stdlib Require Import ZArith String Ascii List Lia.
From stdpp Require Import base option list gmap strings pretty sorting.

Open Scope string_scope.
Open Scope list_scope.
Open Scope Z_scope.

(** ** Package [strings] *)

Module strings.

Definition HasPrefix (s prefix : string) : bool := String.prefix prefix s.

Definition TrimPrefix (s prefix : string) : string :=
  if HasPrefix s prefix
  then String.substring (String.length prefix)
                        (String.length s - String.length prefix)%nat s
  else s.

(** [strings.Split] for a one-byte separator. *)
Fixpoint Split (sep : ascii) (s : string) : list string :=
  match s with
  | EmptyString => [EmptyString]
  | String c s' =>
      if Ascii.eqb c sep then EmptyString :: Split sep s'
      else match Split sep s' with
           | x :: xs => String c x :: xs
           | [] => [String c EmptyString]
           end
  end.

Fixpoint Contains (s : string) (c : ascii) : bool :=
  match s with
  | EmptyString => false
  | String d s' => Ascii.eqb c d || Contains s' c
  end.

End strings.

(** ** Package [path/filepath] (Unix) *)

Module filepath.

Definition rooted (path : string) : bool :=
  match path with
  | String "/" _ => true
  | _ => false
  end.

(** The loop of [Clean] on path elements.  [out] is the output buffer, last
    element first.  A [..] element removes the last element written unless
    the buffer is empty or ends in the leading [..] run; then it is kept
    for a relative path and dropped for a rooted one. *)
Fixpoint clean_elems (is_rooted : bool) (out : list string) (elems : list string)
  : list string :=
  match elems with
  | [] => rev out
  | e :: rest =>
      if bool_decide (e = "") || bool_decide (e = ".") then
        clean_elems is_rooted out rest
      else if bool_decide (e = "..") then
        match out with
        | top :: out' =>
            if bool_decide (top = "..")
            then clean_elems is_rooted (".." :: out) rest
            else clean_elems is_rooted out' rest
        | [] =>
            if is_rooted then clean_elems is_rooted [] rest
            else clean_elems is_rooted [".."] rest
        end
      else clean_elems is_rooted (e :: out) rest
  end.

Definition Clean (path : string) : string :=
  if bool_decide (path = "") then "."
  else
    let elems := clean_elems (rooted path) [] (strings.Split "/" path) in
    if rooted path then "/" +:+ String.concat "/" elems
    else if bool_decide (elems = []) then "."
    else String.concat "/" elems.

(** [Join(a, b)]: empty elements before the first non-empty one are
    dropped, the rest is joined with the separator and cleaned. *)
Definition Join (a b : string) : string :=
  if negb (bool_decide (a = "")) then Clean (a +:+ "/" +:+ b)
  else if negb (bool_decide (b = "")) then Clean b
  else "".

End filepath.

(** ** Errors *)

Inductive errno :=
  ENOENT | ENOTDIR | EISDIR | EEXIST | ENOTEMPTY | EINVAL | ENAMETOOLONG.

(** Go [error] values as the program builds and inspects them. *)
Inductive error :=
| PathError (op path : string) (e : errno)   (* [*fs.PathError] of package [os] *)
| ErrorString (msg : string)                 (* [errors.New], [fmt.Errorf] without [%w] *)
| WrapError (msg : string) (inner : error).  (* [fmt.Errorf("msg: %w", inner)] *)

#[global] Instance errno_eq_dec : EqDecision errno.
Proof. solve_decision. Defined.

#[global] Instance error_eq_dec : EqDecision error.
Proof. solve_decision. Defined.

(** ** Package [io] *)

(** An [io.Reader] as its consumer sees it: the bytes it delivers, then
    [io.EOF] ([fault = None]) or a read error. *)
Record stream := Stream { data : list Byte.byte; fault : option error }.

(** ** Package [os] on a directory tree *)

Module os.

#[warnings="-register-all"] Inductive node :=
| File (content : list Byte.byte)
| Dir (entries : gmap string node).

(** A location is the list of names from the root downwards. *)
Definition location := list string.

Record FS := MkFS { root : node; cwd : location }.

Fixpoint lookup (loc : location) (t : node) {struct loc} : option node :=
  match loc with
  | [] => Some t
  | c :: rest =>
      match t with
      | Dir m => m !! c ≫= lookup rest
      | File _ => None
      end
  end.

(** [put loc v t]: the tree with the entry at [loc] set to [v] ([None]
    unlinks it).  The parent of [loc] must be a directory, otherwise
    nothing changes. *)
Fixpoint put (loc : location) (v : option node) (t : node) {struct loc} : node :=
  match loc with
  | [] => default t v
  | c :: rest =>
      match t with
      | Dir m =>
          match rest with
          | [] => Dir (partial_alter (λ _, v) c m)
          | _ => Dir (alter (put rest v) c m)
          end
      | File _ => t
      end
  end.

(** The disk with the entry at [loc] set. *)
Definition set_entry (loc : location) (v : option node) (fs : FS) : FS :=
  MkFS (put loc v (root fs)) (cwd fs).

Definition is_dir (t : node) (loc : location) : bool :=
  match lookup loc t with
  | Some (Dir _) => true
  | _ => false
  end.

Definition not_dir (o : option node) : Prop :=
  match o with
  | Some (Dir _) => False
  | _ => True
  end.

(** The position after one path element: an empty element and [.] stay,
    [..] goes up (the root is its own parent), a name goes down. *)
Definition step (pos : location) (e : string) : location :=
  if bool_decide (e = "") || bool_decide (e = ".") then pos
  else if bool_decide (e = "..") then removelast pos
  else pos ++ [e].

(** The limits of Linux: a name of a directory entry has at most
    [NAME_MAX] bytes, a path handed to a system call fewer than [PATH_MAX]. *)
Definition NAME_MAX : nat := 255.
Definition PATH_MAX : nat := 4096.

Definition long_name (e : string) : bool := (NAME_MAX <? String.length e)%nat.
Definition long_path (path : string) : bool := (PATH_MAX <=? String.length path)%nat.

(** Path resolution, one element at a time: the position reached so far
    must be a directory before the next element is taken, and the element
    must not be longer than a name can be.  The entry named by the last
    element is not looked up here. *)
Fixpoint walk (t : node) (pos : location) (elems : list string)
  : errno + location :=
  match elems with
  | [] => inr pos
  | e :: rest =>
      match lookup pos t with
      | None => inl ENOENT
      | Some (File _) => inl ENOTDIR
      | Some (Dir _) =>
          if long_name e then inl ENAMETOOLONG else walk t (step pos e) rest
      end
  end.

Definition NUL : ascii := Ascii.ascii_of_nat 0.

Definition namei (fs : FS) (path : string) : errno + location :=
  if bool_decide (path = "") then inl ENOENT
  else if strings.Contains path NUL then inl EINVAL
  else if long_path path then inl ENAMETOOLONG
  else walk (root fs) (if filepath.rooted path then [] else cwd fs)
            (strings.Split "/" path).

(** An open file: the descriptor is identified with the entry it was
    opened on. *)
Record file := OpenFile { fd_loc : location }.

Record FileInfo := MkFileInfo { Size : Z; IsDir : bool }.

(** The size [stat] reports for a directory depends on the file system;
    one block is what ext4 says. *)
Definition dir_size : Z := 4096.

Definition info_of (n : node) : FileInfo :=
  match n with
  | File c => MkFileInfo (Z.of_nat (length c)) false
  | Dir _ => MkFileInfo dir_size true
  end.

Definition Stat (path : string) (fs : FS) : FileInfo + error :=
  match namei fs path with
  | inl e => inr (PathError "stat" path e)
  | inr loc =>
      match lookup loc (root fs) with
      | Some n => inl (info_of n)
      | None => inr (PathError "stat" path ENOENT)
      end
  end.

(** [os.Open]: read-only; a directory can be opened. *)
Definition Open (path : string) (fs : FS) : file + error :=
  match namei fs path with
  | inl e => inr (PathError "open" path e)
  | inr loc =>
      match lookup loc (root fs) with
      | Some _ => inl (OpenFile loc)
      | None => inr (PathError "open" path ENOENT)
      end
  end.

(** [os.Create]: [O_RDWR|O_CREATE|O_TRUNC]. *)
Definition Create (path : string) (fs : FS) : FS * (file + error) :=
  match namei fs path with
  | inl e => (fs, inr (PathError "open" path e))
  | inr loc =>
      match lookup loc (root fs) with
      | Some (Dir _) => (fs, inr (PathError "open" path EISDIR))
      | _ => (set_entry loc (Some (File [])) fs, inl (OpenFile loc))
      end
  end.

(** [os.Remove]: unlink a file, or remove an empty directory. *)
Definition Remove (path : string) (fs : FS) : FS * option error :=
  match namei fs path with
  | inl e => (fs, Some (PathError "remove" path e))
  | inr loc =>
      match lookup loc (root fs) with
      | None => (fs, Some (PathError "remove" path ENOENT))
      | Some (File _) => (set_entry loc None fs, None)
      | Some (Dir m) =>
          if bool_decide (m = ∅) && negb (bool_decide (loc = []))
          then (set_entry loc None fs, None)
          else (fs, Some (PathError "remove" path ENOTEMPTY))
      end
  end.

(** [f.Stat()] on an open file. *)
Definition file_Stat (f : file) (fs : FS) : FileInfo + error :=
  match lookup (fd_loc f) (root fs) with
  | Some n => inl (info_of n)
  | None => inr (PathError "stat" "" ENOENT)
  end.

(** Everything [f.Read] delivers until it stops; reading a directory
    fails at once. *)
Definition file_reader (f : file) (fs : FS) : stream :=
  match lookup (fd_loc f) (root fs) with
  | Some (File c) => Stream c None
  | Some (Dir _) => Stream [] (Some (PathError "read" "" EISDIR))
  | None => Stream [] None
  end.

(** [f.Write]: append at the end of the file. *)
Definition file_Write (f : file) (b : list Byte.byte) (fs : FS) : FS :=
  match lookup (fd_loc f) (root fs) with
  | Some (File c) => set_entry (fd_loc f) (Some (File (c ++ b))) fs
  | _ => fs
  end.

(** [os.MkdirAll]: make every missing directory on the way; an existing
    directory is fine, a file in the way or at the end is not, and neither
    is a name longer than [NAME_MAX].  [mkdir_walk] is its way along the
    elements of the path. *)
Fixpoint mkdir_walk (t : node) (pos : location) (elems : list string)
  : node * (errno + location) :=
  match elems with
  | [] => (t, inr pos)
  | e :: rest =>
      match lookup pos t with
      | None => (t, inl ENOENT)
      | Some (File _) => (t, inl ENOTDIR)
      | Some (Dir m) =>
          if long_name e then (t, inl ENAMETOOLONG)
          else if bool_decide (e = "") || bool_decide (e = ".") then mkdir_walk t pos rest
          else if bool_decide (e = "..") then mkdir_walk t (removelast pos) rest
          else
            match m !! e with
            | Some _ => mkdir_walk t (pos ++ [e]) rest
            | None => mkdir_walk (put (pos ++ [e]) (Some (Dir ∅)) t) (pos ++ [e]) rest
            end
      end
  end.

(** The number of empty elements a list begins with. *)
Fixpoint leading_empty (elems : list string) : nat :=
  match elems with
  | "" :: rest => S (leading_empty rest)
  | _ => 0
  end.

(** The elements of a path that [MkdirAll] gets to when the whole path is
    too long.  It handles the text up to an element, with the separators
    that follow the element directly, as a path of its own; [used] is where
    the element starts.  The first such text of [PATH_MAX] bytes or more
    stops it. *)
Fixpoint within_limit (used : nat) (elems : list string) : list string :=
  match elems with
  | [] => []
  | e :: rest =>
      if bool_decide (e = "") then e :: within_limit (S used) rest
      else if (PATH_MAX <=? used + String.length e + leading_empty rest)%nat then []
      else e :: within_limit (used + String.length e + 1) rest
  end.

(** A path of [PATH_MAX] bytes or more fails, after the directories of its
    leading part that is short enough were made. *)
Definition MkdirAll (path : string) (fs : FS) : FS * option error :=
  if bool_decide (path = "") then (fs, Some (PathError "mkdir" path ENOENT))
  else if strings.Contains path NUL then (fs, Some (PathError "mkdir" path EINVAL))
  else if long_path path then
    match mkdir_walk (root fs) (if filepath.rooted path then [] else cwd fs)
                     (within_limit 0 (strings.Split "/" path)) with
    | (t, inl e) => (MkFS t (cwd fs), Some (PathError "mkdir" path e))
    | (t, inr loc) =>
        match lookup loc t with
        | Some (File _) => (MkFS t (cwd fs), Some (PathError "mkdir" path ENOTDIR))
        | _ => (MkFS t (cwd fs), Some (PathError "mkdir" path ENAMETOOLONG))
        end
    end
  else
    match mkdir_walk (root fs) (if filepath.rooted path then [] else cwd fs)
                     (strings.Split "/" path) with
    | (t, inl e) => (MkFS t (cwd fs), Some (PathError "mkdir" path e))
    | (t, inr loc) =>
        match lookup loc t with
        | Some (Dir _) => (MkFS t (cwd fs), None)
        | Some (File _) => (MkFS t (cwd fs), Some (PathError "mkdir" path ENOTDIR))
        | None => (MkFS t (cwd fs), Some (PathError "mkdir" path ENOENT))
        end
    end.

(** [os.IsNotExist]: looks at the error itself, not through [%w]. *)
Definition IsNotExist (err : error) : bool :=
  match err with
  | PathError _ _ ENOENT => true
  | _ => false
  end.

End os.

(** [io.Copy(file, src)]: what was read before the source stopped is in the
    file; the source's error is the result. *)
Definition io_Copy_to_file (dst : os.file) (src : stream) (fs : os.FS)
  : os.FS * option error :=
  (os.file_Write dst (data src) fs, fault src).

(** ** The artifact store *)

Record FileSystemStorage := { basePath : string }.

Definition NewFileSystemStorage (basePath : string) (fs : os.FS)
  : os.FS * (FileSystemStorage + error) :=
  match os.MkdirAll basePath fs with
  | (fs', Some err) => (fs', inr (WrapError "failed to create storage directory" err))
  | (fs', None) => (fs', inl {| basePath := basePath |})
  end.

(** [Store]: the deferred [file.Close()] has no effect on the tree; the
    result of [os.Remove] is dropped as in the source. *)
Definition Store (st : FileSystemStorage) (hash : string) (body : stream) (fs : os.FS)
  : os.FS * option error :=
  let path := filepath.Join (basePath st) hash in
  match os.Create path fs with
  | (fs1, inr err) => (fs1, Some (WrapError "failed to create file" err))
  | (fs1, inl file) =>
      match io_Copy_to_file file body fs1 with
      | (fs2, Some err) =>
          let '(fs3, _) := os.Remove path fs2 in
          (fs3, Some (WrapError "failed to write file" err))
      | (fs2, None) => (fs2, None)
      end
  end.

(** [Get]: the open file and its size; the disk is only read. *)
Definition Get (st : FileSystemStorage) (hash : string) (fs : os.FS)
  : (os.file * Z) + error :=
  let path := filepath.Join (basePath st) hash in
  match os.Open path fs with
  | inr err =>
      if os.IsNotExist err then inr (ErrorString "artifact not found")
      else inr (WrapError "failed to open file" err)
  | inl file =>
      match os.file_Stat file fs with
      | inr err => inr (WrapError "failed to get file info" err)
      | inl info => inl (file, os.Size info)
      end
  end.

Definition Exists (st : FileSystemStorage) (hash : string) (fs : os.FS)
  : bool * option error :=
  let path := filepath.Join (basePath st) hash in
  match os.Stat path fs with
  | inl _ => (true, None)
  | inr err => if os.IsNotExist err then (false, None) else (false, Some err)
  end.


(** ** Package [encoding/json] *)

(** A [float64] is carried as its IEEE 754 bits; the program only stores,
    compares with zero and prints such values. *)
Record float64 := Float64 { float_bits : Z }.

Module json.

(** A JSON document.  An object lists its members in the order they are
    written out. *)
#[warnings="-register-all"] Inductive value :=
| Null
| Bool (b : bool)
| Int (n : Z)
| Float (f : float64)
| Str (s : string)
| Array (items : list value)
| Object (members : list (string * value)).

Fixpoint assoc (key : string) (ms : list (string * value)) : option value :=
  match ms with
  | [] => None
  | (k, v) :: rest => if bool_decide (k = key) then Some v else assoc key rest
  end.

Definition member (key : string) (v : value) : option value :=
  match v with
  | Object ms => assoc key ms
  | _ => None
  end.

Definition keys (v : value) : list string :=
  match v with
  | Object ms => ms.*1
  | _ => []
  end.

(** A struct field tagged [omitempty] is left out when it holds its zero
    value. *)
Definition omitempty (key : string) (empty : bool) (v : value)
  : list (string * value) :=
  if empty then [] else [(key, v)].

(** Map keys are written in increasing byte order. *)
Definition key_le (a b : string * value) : Prop := String.leb a.1 b.1 = true.

#[global] Instance key_le_dec a b : Decision (key_le a b).
Proof. unfold key_le. apply _. Defined.

Definition of_map (m : gmap string value) : value :=
  Object (merge_sort key_le (map_to_list m)).

End json.

(** ** Request and response records of [main.go] *)

Record ArtifactEvent := {
  SessionID : string;
  Source : string;
  Event : string;
  Hash : string;
  Duration : float64
}.

Record StatusResponse := { Status : string }.

Record UploadResponse := { URLs : list string }.

Record ErrorBody := { Message : string }.

Record ArtifactInfo := {
  Size : Z;
  TaskDurationMs : float64;
  Tag : string;
  Error : option ErrorBody
}.

Record ArtifactQueryRequest := { Hashes : list string }.

(** [json.NewDecoder(body).Decode(&v)] at the two types the program decodes:
    the decoder of the library is an argument of the development. *)
Class Decoders := {
  DecodeEvents : stream → list ArtifactEvent + error;
  DecodeQuery : stream → ArtifactQueryRequest + error
}.

(** What [json.Encoder] writes for each response type, from the struct tags. *)
Definition marshal_StatusResponse (v : StatusResponse) : json.value :=
  json.Object [("status", json.Str (Status v))].

Definition marshal_UploadResponse (v : UploadResponse) : json.value :=
  json.Object [("urls", json.Array (json.Str <$> URLs v))].

Definition marshal_ErrorBody (v : ErrorBody) : json.value :=
  json.Object [("message", json.Str (Message v))].

Definition marshal_ArtifactInfo (v : ArtifactInfo) : json.value :=
  json.Object
    (json.omitempty "size" (bool_decide (Size v = 0)) (json.Int (Size v)) ++
     json.omitempty "taskDurationMs" (bool_decide (float_bits (TaskDurationMs v) = 0))
                    (json.Float (TaskDurationMs v)) ++
     json.omitempty "tag" (bool_decide (Tag v = "")) (json.Str (Tag v)) ++
     match Error v with
     | Some e => [("error", marshal_ErrorBody e)]
     | None => []
     end).

Definition marshal_response (m : gmap string ArtifactInfo) : json.value :=
  json.of_map (marshal_ArtifactInfo <$> m).

(** ** Package [net/http] *)

Module http.

Definition StatusOK : Z := 200.
Definition StatusAccepted : Z := 202.
Definition StatusBadRequest : Z := 400.
Definition StatusUnauthorized : Z := 401.
Definition StatusNotFound : Z := 404.
Definition StatusMethodNotAllowed : Z := 405.
Definition StatusInternalServerError : Z := 500.

Definition MethodGet := "GET".
Definition MethodHead := "HEAD".
Definition MethodPost := "POST".
Definition MethodPut := "PUT".

Definition StatusText (code : Z) : string :=
  match code with
  | 100 => "Continue" | 101 => "Switching Protocols" | 102 => "Processing"
  | 103 => "Early Hints"
  | 200 => "OK" | 201 => "Created" | 202 => "Accepted"
  | 203 => "Non-Authoritative Information" | 204 => "No Content"
  | 205 => "Reset Content" | 206 => "Partial Content" | 207 => "Multi-Status"
  | 208 => "Already Reported" | 226 => "IM Used"
  | 300 => "Multiple Choices" | 301 => "Moved Permanently" | 302 => "Found"
  | 303 => "See Other" | 304 => "Not Modified" | 305 => "Use Proxy"
  | 307 => "Temporary Redirect" | 308 => "Permanent Redirect"
  | 400 => "Bad Request" | 401 => "Unauthorized" | 402 => "Payment Required"
  | 403 => "Forbidden" | 404 => "Not Found" | 405 => "Method Not Allowed"
  | 406 => "Not Acceptable" | 407 => "Proxy Authentication Required"
  | 408 => "Request Timeout" | 409 => "Conflict" | 410 => "Gone"
  | 411 => "Length Required" | 412 => "Precondition Failed"
  | 413 => "Request Entity Too Large" | 414 => "Request URI Too Long"
  | 415 => "Unsupported Media Type" | 416 => "Requested Range Not Satisfiable"
  | 417 => "Expectation Failed" | 418 => "I'm a teapot"
  | 421 => "Misdirected Request" | 422 => "Unprocessable Entity"
  | 423 => "Locked" | 424 => "Failed Dependency" | 425 => "Too Early"
  | 426 => "Upgrade Required" | 428 => "Precondition Required"
  | 429 => "Too Many Requests" | 431 => "Request Header Fields Too Large"
  | 451 => "Unavailable For Legal Reasons"
  | 500 => "Internal Server Error" | 501 => "Not Implemented"
  | 502 => "Bad Gateway" | 503 => "Service Unavailable"
  | 504 => "Gateway Timeout" | 505 => "HTTP Version Not Supported"
  | 506 => "Variant Also Negotiates" | 507 => "Insufficient Storage"
  | 508 => "Loop Detected" | 510 => "Not Extended"
  | 511 => "Network Authentication Required"
  | _ => ""
  end.

(** [http.Header]: canonical key to values.  The keys the program uses are
    written in canonical form, so [Get], [Set] and [Del] take them as they
    are. *)
Abbreviation Header := (gmap string (list string)).

Definition Header_Get (h : Header) (key : string) : string :=
  match h !! key with
  | Some (v :: _) => v
  | _ => ""
  end.

Definition Header_Set (key v : string) (h : Header) : Header := <[key := [v]]> h.

Definition Header_Del (key : string) (h : Header) : Header := delete key h.

Record Request := {
  Method : string;
  URL_Path : string;
  ReqHeader : Header;
  Body : stream
}.

(** One call of [Write]: bytes, or the text [json.Encoder] produces for a
    document (its compact encoding and a newline). *)
Inductive chunk :=
| Bytes (b : list Byte.byte)
| JSONText (v : json.value).

(** The interface [http.ResponseWriter].  [w_SetHeader] is a change made
    through the map [w.Header()] hands out. *)
Class ResponseWriter (W : Type) := {
  w_Header : W → Header;
  w_SetHeader : (Header → Header) → W → W;
  w_Write : chunk → W → W;
  w_WriteHeader : Z → W → W
}.

(** The server's own writer.  The first [WriteHeader] fixes the status and
    the header that goes out; later calls are ignored.  [Write] before
    any [WriteHeader] sends 200 first.  [written] is what the handler
    passed to [Write]. *)
Record response := {
  handlerHeader : Header;
  wroteHeader : bool;
  status : Z;
  sentHeader : Header;
  written : list chunk
}.

Definition new_response : response :=
  {| handlerHeader := ∅; wroteHeader := false; status := 0;
     sentHeader := ∅; written := [] |}.

Definition response_WriteHeader (code : Z) (w : response) : response :=
  if wroteHeader w then w
  else {| handlerHeader := handlerHeader w; wroteHeader := true; status := code;
          sentHeader := handlerHeader w; written := written w |}.

Definition response_Write (c : chunk) (w : response) : response :=
  let w := response_WriteHeader StatusOK w in
  {| handlerHeader := handlerHeader w; wroteHeader := wroteHeader w;
     status := status w; sentHeader := sentHeader w;
     written := written w ++ [c] |}.

Definition response_SetHeader (f : Header → Header) (w : response) : response :=
  {| handlerHeader := f (handlerHeader w); wroteHeader := wroteHeader w;
     status := status w; sentHeader := sentHeader w; written := written w |}.

#[global] Instance response_writer : ResponseWriter response := {
  w_Header := handlerHeader;
  w_SetHeader := response_SetHeader;
  w_Write := response_Write;
  w_WriteHeader := response_WriteHeader
}.

(** When the handler returns without having written a header, the server
    sends 200. *)
Definition finishRequest (w : response) : response := response_WriteHeader StatusOK w.

(** The body as bytes, when the handler wrote only bytes. *)
Fixpoint raw_body (cs : list chunk) : option (list Byte.byte) :=
  match cs with
  | [] => Some []
  | Bytes b :: rest => (λ tl, b ++ tl) <$> raw_body rest
  | JSONText _ :: _ => None
  end.

Definition newline : string := String (Ascii.ascii_of_nat 10) EmptyString.

Section Writers.
Context {W : Type} `{ResponseWriter W}.

(** [http.Error] *)
Definition Error (w : W) (error : string) (code : Z) : W :=
  let w := w_SetHeader (Header_Del "Content-Length") w in
  let w := w_SetHeader (Header_Set "Content-Type" "text/plain; charset=utf-8") w in
  let w := w_SetHeader (Header_Set "X-Content-Type-Options" "nosniff") w in
  let w := w_WriteHeader code w in
  w_Write (Bytes (list_byte_of_string (error +:+ newline))) w.

(** [json.NewEncoder(w).Encode(v)] *)
Definition Encode (w : W) (v : json.value) : W := w_Write (JSONText v) w.

(** [io.Copy(w, src)]: [Write] is called only when something was read. *)
Definition io_Copy (w : W) (src : stream) : W * option error :=
  (match data src with
   | [] => w
   | b => w_Write (Bytes b) w
   end, fault src).

End Writers.

End http.

(** ** The server *)

(** [float64] zero, the value of a field nobody sets. *)
Definition float_zero : float64 := Float64 0.

(** One constructor for each [logger.Printf] of [main.go], with its
    arguments; the elapsed time of the response lines is left out. *)
Inductive logline :=
| LogRequest (method path : string)
| LogResponse (code : Z) (text : string)
| LogCacheEvent (hash source event : string) (duration : float64)
| LogDownloadFailed (hash : string) (err : error)
| LogStreamError (hash : string) (err : error)
| LogUploadFailed (hash : string) (err : error)
| LogCheckError (hash : string) (err : error).

(** What a handler works on besides its writer: the disk and the log. *)
Record World := { fsys : os.FS; logged : list logline }.

Definition Printf (l : logline) (wd : World) : World :=
  {| fsys := fsys wd; logged := logged wd ++ [l] |}.

Definition with_fs (fs : os.FS) (wd : World) : World :=
  {| fsys := fs; logged := logged wd |}.

Record Server := { storage : FileSystemStorage; token : string }.

Record loggingResponseWriter (W : Type) := {
  ResponseWriter_ : W;
  statusCode : Z
}.
Arguments ResponseWriter_ {W} _.
Arguments statusCode {W} _.

Definition newLoggingResponseWriter {W : Type} (w : W) : loggingResponseWriter W :=
  {| ResponseWriter_ := w; statusCode := http.StatusOK |}.

(** [Header] and [Write] are promoted from the embedded writer;
    [WriteHeader] is the method of [main.go]. *)
#[global] Instance loggingResponseWriter_writer {W : Type} `{http.ResponseWriter W}
  : http.ResponseWriter (loggingResponseWriter W) := {
  w_Header lrw := http.w_Header (ResponseWriter_ lrw);
  w_SetHeader f lrw :=
    {| ResponseWriter_ := http.w_SetHeader f (ResponseWriter_ lrw);
       statusCode := statusCode lrw |};
  w_Write c lrw :=
    {| ResponseWriter_ := http.w_Write c (ResponseWriter_ lrw);
       statusCode := statusCode lrw |};
  w_WriteHeader code lrw :=
    {| ResponseWriter_ := http.w_WriteHeader code (ResponseWriter_ lrw);
       statusCode := code |}
}.

(** [http.HandlerFunc]: a handler takes any response writer. *)
Definition HandlerFunc : Type :=
  ∀ (W : Type), http.ResponseWriter W → W → http.Request → World → W * World.

Section Handlers.
Context `{Decoders}.
Variable s : Server.

(** Middleware to handle authentication.  [time.Now] and [time.Since] have
    no counterpart: the log lines carry no time. *)
Definition handleAuth (next : HandlerFunc) : HandlerFunc :=
  λ W _ w r wd,
    let lrw := newLoggingResponseWriter w in
    let wd := Printf (LogRequest (http.Method r) (http.URL_Path r)) wd in
    let auth := http.Header_Get (http.ReqHeader r) "Authorization" in
    if negb (strings.HasPrefix auth "Bearer ") then
      let lrw := http.Error lrw "Unauthorized" http.StatusUnauthorized in
      (ResponseWriter_ lrw,
       Printf (LogResponse http.StatusUnauthorized "Unauthorized (no bearer token)") wd)
    else
      let token_ := strings.TrimPrefix auth "Bearer " in
      if negb (bool_decide (token_ = token s)) then
        let lrw := http.Error lrw "Unauthorized" http.StatusUnauthorized in
        (ResponseWriter_ lrw,
         Printf (LogResponse http.StatusUnauthorized "Unauthorized (invalid token)") wd)
      else
        let '(lrw, wd) := next _ _ lrw r wd in
        (ResponseWriter_ lrw,
         Printf (LogResponse (statusCode lrw) (http.StatusText (statusCode lrw))) wd).

Section Routes.
Context {W : Type} `{http.ResponseWriter W}.

(** Handler for /v8/artifacts/events *)
Definition recordEvents (w : W) (r : http.Request) (wd : World) : W * World :=
  if negb (bool_decide (http.Method r = http.MethodPost)) then
    (http.Error w "Method not allowed" http.StatusMethodNotAllowed, wd)
  else
    match DecodeEvents (http.Body r) with
    | inr _ => (http.Error w "Invalid request body" http.StatusBadRequest, wd)
    | inl events =>
        let wd := foldl (λ wd event,
                     Printf (LogCacheEvent (Hash event) (Source event)
                                           (Event event) (Duration event)) wd)
                        wd events in
        (http.w_WriteHeader http.StatusOK w, wd)
    end.

(** Handler for /v8/artifacts/status *)
Definition getStatus (w : W) (r : http.Request) (wd : World) : W * World :=
  if negb (bool_decide (http.Method r = http.MethodGet)) then
    (http.Error w "Method not allowed" http.StatusMethodNotAllowed, wd)
  else
    let response := {| Status := "enabled" |} in
    (http.Encode w (marshal_StatusResponse response), wd).

Definition downloadArtifact (w : W) (r : http.Request) (hash : string) (wd : World)
  : W * World :=
  match Get (storage s) hash (fsys wd) with
  | inr err =>
      let wd := Printf (LogDownloadFailed hash err) wd in
      (http.Error w "Artifact not found" http.StatusNotFound, wd)
  | inl (reader, size) =>
      let w := http.w_SetHeader (http.Header_Set "Content-Length" (pretty size)) w in
      let w := http.w_SetHeader
                 (http.Header_Set "Content-Type" "application/octet-stream") w in
      match http.io_Copy w (os.file_reader reader (fsys wd)) with
      | (w, Some err) => (w, Printf (LogStreamError hash err) wd)
      | (w, None) => (w, wd)
      end
  end.

Definition uploadArtifact (w : W) (r : http.Request) (hash : string) (wd : World)
  : W * World :=
  let contentLength := http.Header_Get (http.ReqHeader r) "Content-Length" in
  if bool_decide (contentLength = "") then
    (http.Error w "Content-Length required" http.StatusBadRequest, wd)
  else
    match Store (storage s) hash (http.Body r) (fsys wd) with
    | (fs, Some err) =>
        let wd := Printf (LogUploadFailed hash err) (with_fs fs wd) in
        (http.Error w "Failed to store artifact" http.StatusInternalServerError, wd)
    | (fs, None) =>
        let response :=
          {| URLs := ["https://api.vercel.com/v2/now/artifact/" +:+ hash] |} in
        let w := http.w_WriteHeader http.StatusAccepted w in
        (http.Encode w (marshal_UploadResponse response), with_fs fs wd)
    end.

Definition checkArtifact (w : W) (r : http.Request) (hash : string) (wd : World)
  : W * World :=
  match Exists (storage s) hash (fsys wd) with
  | (_, Some err) =>
      let wd := Printf (LogCheckError hash err) wd in
      (http.Error w "Internal server error" http.StatusInternalServerError, wd)
  | (exists_, None) =>
      if negb exists_ then
        (http.Error w "Artifact not found" http.StatusNotFound, wd)
      else (http.w_WriteHeader http.StatusOK w, wd)
  end.

(** Handler for /v8/artifacts/{hash} *)
Definition handleArtifact (w : W) (r : http.Request) (wd : World) : W * World :=
  let hash := strings.TrimPrefix (http.URL_Path r) "/v8/artifacts/" in
  if bool_decide (http.Method r = http.MethodGet) then downloadArtifact w r hash wd
  else if bool_decide (http.Method r = http.MethodPut) then uploadArtifact w r hash wd
  else if bool_decide (http.Method r = http.MethodHead) then checkArtifact w r hash wd
  else (http.Error w "Method not allowed" http.StatusMethodNotAllowed, wd).

(** The loop of [queryArtifacts]: one [Get] for each hash, in order,
    each result stored in the response map under its hash. *)
Definition query_step (fs : os.FS) (response : gmap string ArtifactInfo)
  (hash : string) : gmap string ArtifactInfo :=
  match Get (storage s) hash fs with
  | inr _ =>
      <[hash := {| Size := 0; TaskDurationMs := float_zero; Tag := "";
                   Error := Some {| Message := "Artifact not found" |} |}]> response
  | inl (_, size) =>
      <[hash := {| Size := size; TaskDurationMs := float_zero; Tag := "";
                   Error := None |}]> response
  end.

(** Handler for /v8/artifacts (POST - query) *)
Definition queryArtifacts (w : W) (r : http.Request) (wd : World) : W * World :=
  if negb (bool_decide (http.Method r = http.MethodPost)) then
    (http.Error w "Method not allowed" http.StatusMethodNotAllowed, wd)
  else
    match DecodeQuery (http.Body r) with
    | inr _ => (http.Error w "Invalid request body" http.StatusBadRequest, wd)
    | inl req =>
        let response := foldl (query_step (fsys wd)) ∅ (Hashes req) in
        (http.Encode w (marshal_response response), wd)
    end.

End Routes.

(** The routes [main] registers: pattern and handler. *)
Definition routes : list (string * HandlerFunc) :=
  [ ("/v8/artifacts/events", handleAuth (λ W _, recordEvents));
    ("/v8/artifacts/status", handleAuth (λ W _, getStatus));
    ("/v8/artifacts/", handleAuth (λ W _, handleArtifact));
    ("/v8/artifacts", handleAuth (λ W _, queryArtifacts)) ].

(** The server runs a handler on a fresh writer and sends the header if
    the handler did not. *)
Definition serve (h : HandlerFunc) (r : http.Request) (wd : World)
  : http.response * World :=
  let '(w, wd) := h _ _ http.new_response r wd in
  (http.finishRequest w, wd).

End Handlers.

(** ** A decoder for the documents of the examples

    It accepts an object with the one member [hashes], an array of strings,
    written without white space, the strings in printable ASCII without
    escapes; and the empty array for the events.  On a document it accepts
    it returns what [encoding/json] returns.  It serves the concrete runs
    only: the theorems hold for every decoder. *)

Module plain_json.

Definition quote : ascii := Ascii.ascii_of_nat 34.

Definition plain_char (c : ascii) : bool :=
  let n := Ascii.nat_of_ascii c in
  (32 <=? n)%nat && (n <? 127)%nat && negb (n =? 34)%nat && negb (n =? 92)%nat.

(** After an opening quote: the string and what follows its closing quote. *)
Fixpoint quoted (s : string) : option (string * string) :=
  match s with
  | EmptyString => None
  | String c rest =>
      if Ascii.eqb c quote then Some (EmptyString, rest)
      else if plain_char c then
        match quoted rest with
        | Some (x, r) => Some (String c x, r)
        | None => None
        end
      else None
  end.

(** After an element: a comma and another string, or the closing bracket. *)
Fixpoint more (fuel : nat) (acc : list string) (s : string)
  : option (list string * string) :=
  match fuel with
  | O => None
  | S fuel' =>
      match s with
      | String "]" rest => Some (rev acc, rest)
      | String "," (String c rest) =>
          if Ascii.eqb c quote then
            match quoted rest with
            | Some (x, r) => more fuel' (x :: acc) r
            | None => None
            end
          else None
      | _ => None
      end
  end.

Definition strings_array (s : string) : option (list string * string) :=
  match s with
  | String "[" (String "]" rest) => Some ([], rest)
  | String "[" (String c rest) =>
      if Ascii.eqb c quote then
        match quoted rest with
        | Some (x, r) => more (String.length r) [x] r
        | None => None
        end
      else None
  | _ => None
  end.

(** The text before the array. *)
Definition opening : string := "{" +:+ String quote ("hashes" +:+ String quote ":").

Definition hashes_document (s : string) : option (list string) :=
  if strings.HasPrefix s opening then
    match strings_array (strings.TrimPrefix s opening) with
    | Some (l, String "}" _) => Some l
    | _ => None
    end
  else None.

(** The document that asks for the hashes [l]. *)
Definition document (l : list string) : string :=
  opening +:+ "[" +:+ String.concat "," ((λ h, String quote (h +:+ String quote "")) <$> l)
          +:+ "]}".

Definition decoders : Decoders := {|
  DecodeEvents body :=
    if bool_decide (string_of_list_byte (data body) = "[]") then inl []
    else inr (ErrorString "json: unsupported document");
  DecodeQuery body :=
    match hashes_document (string_of_list_byte (data body)) with
    | Some l => inl {| Hashes := l |}
    | None => inr (ErrorString "json: unsupported document")
    end
|}.

(** Events: an array of objects with the four string fields in the order
    [sessionId], [source], [event], [hash] and no duration. *)
Definition key (name : string) : string :=
  String quote (name +:+ String quote (":" +:+ String quote "")).

Definition expect (p s : string) : option string :=
  if strings.HasPrefix s p then Some (strings.TrimPrefix s p) else None.

Definition event_object (s : string) : option (ArtifactEvent * string) :=
  s ← expect ("{" +:+ key "sessionId") s;
  '(session, s) ← quoted s;
  s ← expect ("," +:+ key "source") s;
  '(source, s) ← quoted s;
  s ← expect ("," +:+ key "event") s;
  '(event, s) ← quoted s;
  s ← expect ("," +:+ key "hash") s;
  '(hash, s) ← quoted s;
  s ← expect "}" s;
  Some ({| SessionID := session; Source := source; Event := event; Hash := hash;
           Duration := float_zero |}, s).

Fixpoint more_events (fuel : nat) (acc : list ArtifactEvent) (s : string)
  : option (list ArtifactEvent) :=
  match fuel with
  | O => None
  | S fuel' =>
      match s with
      | String "]" _ => Some (rev acc)
      | String "," rest =>
          match event_object rest with
          | Some (e, r) => more_events fuel' (e :: acc) r
          | None => None
          end
      | _ => None
      end
  end.

Definition events_document (s : string) : option (list ArtifactEvent) :=
  match s with
  | String "[" (String "]" _) => Some []
  | String "[" rest =>
      match event_object rest with
      | Some (e, r) => more_events (String.length r) [e] r
      | None => None
      end
  | _ => None
  end.

(** The document that reports the events [l]. *)
Definition event_text (e : ArtifactEvent) : string :=
  "{" +:+ key "sessionId" +:+ SessionID e
      +:+ String quote ("," +:+ key "source") +:+ Source e
      +:+ String quote ("," +:+ key "event") +:+ Event e
      +:+ String quote ("," +:+ key "hash") +:+ Hash e
      +:+ String quote "}".

Definition events_text (l : list ArtifactEvent) : string :=
  "[" +:+ String.concat "," (event_text <$> l) +:+ "]".

Definition decoders_with_events : Decoders := {|
  DecodeEvents body :=
    match events_document (string_of_list_byte (data body)) with
    | Some l => inl l
    | None => inr (ErrorString "json: unsupported document")
    end;
  DecodeQuery := @DecodeQuery decoders
|}.

End plain_json.


(** ** Sequences of store calls *)

Inductive store_call :=
| CallStore (hash : string) (body : stream)
| CallGet (hash : string)
| CallExists (hash : string).

(** The effect of one call on the disk; [Get] and [Exists] only read. *)
Definition run_call (st : FileSystemStorage) (fs : os.FS) (c : store_call) : os.FS :=
  match c with
  | CallStore hash body => fst (Store st hash body fs)
  | CallGet hash => let _ := Get st hash fs in fs
  | CallExists hash => let _ := Exists st hash fs in fs
  end.

Definition run_calls (st : FileSystemStorage) (fs : os.FS) (cs : list store_call) : os.FS :=
  foldl (run_call st) fs cs.

(** A [Store] that is interrupted on the file of [hash]: its input stops
    with an error, so that its copy fails, and on the disk [fs] its path
    leads to the entry the path of [hash] leads to. *)
Definition interrupts (st : FileSystemStorage) (fs : os.FS) (hash : string)
  (c : store_call) : bool :=
  match c with
  | CallStore hash' body =>
      bool_decide (fault body ≠ None)
      && match os.namei fs (filepath.Join (basePath st) hash'),
               os.namei fs (filepath.Join (basePath st) hash) with
         | inr loc', inr loc => bool_decide (loc' = loc)
         | _, _ => false
         end
  | _ => false
  end.

(** The disk [fs'] has the directories of [fs] and no others, and the same
    working directory. *)
Definition same_dirs (fs fs' : os.FS) : Prop :=
  os.cwd fs' = os.cwd fs
  ∧ ∀ q, os.is_dir (os.root fs') q = os.is_dir (os.root fs) q.

(** The logging writer is in step with the server's writer: the code it
    recorded is the status that goes out. *)
Definition in_step (lrw : loggingResponseWriter http.response) : Prop :=
  http.status (http.finishRequest (ResponseWriter_ lrw)) = statusCode lrw.

(** The entry the query loop stores for a hash. *)
Definition query_info (st : FileSystemStorage) (fs : os.FS) (hash : string) : ArtifactInfo :=
  match Get st hash fs with
  | inr _ => {| Size := 0; TaskDurationMs := float_zero; Tag := "";
                Error := Some {| Message := "Artifact not found" |} |}
  | inl (_, size) => {| Size := size; TaskDurationMs := float_zero; Tag := "";
                        Error := None |}
  end.

(** The entry of a hash in the answer to a query, by the result of [Get]:
    the size when it is not zero, an object without members for an artifact
    of no bytes, the error message when [Get] fails. *)
Definition expected_entry (got : os.file * Z + error) : json.value :=
  match got with
  | inl (_, size) =>
      if bool_decide (size = 0) then json.Object []
      else json.Object [("size", json.Int size)]
  | inr _ =>
      json.Object [("error", json.Object [("message", json.Str "Artifact not found")])]
  end.

(** The response lines of a log. *)
Definition response_codes (l : list logline) : list Z :=
  omap (λ x, match x with LogResponse code _ => Some code | _ => None end) l.

(** ** A small installation for the concrete runs *)

Module demo.

Definition bytes (s : string) : list Byte.byte := list_byte_of_string s.

(** An empty disk, the process started in its root. *)
Definition blank : os.FS := os.MkFS (os.Dir ∅) [].

(** The server of [main] with the default cache directory and the token
    [test], after [NewFileSystemStorage]. *)
Definition store : FileSystemStorage := {| basePath := "./turbo-cache" |}.

Definition server : Server := {| storage := store; token := "test" |}.

Definition disk0 : os.FS := fst (NewFileSystemStorage "./turbo-cache" blank).

Definition start : World := {| fsys := disk0; logged := [] |}.

Definition bearer : http.Header := <["Authorization" := ["Bearer test"]]> ∅.

Definition request (method path : string) (h : http.Header) (body : stream)
  : http.Request :=
  {| http.Method := method; http.URL_Path := path;
     http.ReqHeader := h; http.Body := body |}.

Definition whole (s : string) : stream := Stream (bytes s) None.

(** A body that breaks off after [s]. *)
Definition broken (s : string) : stream :=
  Stream (bytes s) (Some (ErrorString "unexpected EOF")).

Definition nothing : stream := Stream [] None.

(** The disk after [hello] was stored under [abc123]. *)
Definition disk1 : os.FS := fst (Store store "abc123" (whole "hello") disk0).

Definition world1 : World := {| fsys := disk1; logged := [] |}.

Definition artifact : HandlerFunc := handleAuth server (λ W _, handleArtifact server).

Definition query : HandlerFunc :=
  handleAuth server (λ W _, @queryArtifacts plain_json.decoders server W _).

Definition with_length (n : string) : http.Header := <["Content-Length" := [n]]> bearer.

(** Upload and download under the empty hash. *)
Definition put_root : http.Request :=
  request "PUT" "/v8/artifacts/" (with_length "5") (whole "hello").

Definition get_root : http.Request := request "GET" "/v8/artifacts/" bearer nothing.

Definition head_root : http.Request := request "HEAD" "/v8/artifacts/" bearer nothing.

(** Upload and download under [abc123]. *)
Definition put_abc : http.Request :=
  request "PUT" "/v8/artifacts/abc123" (with_length "5") (whole "hello").

Definition get_abc : http.Request := request "GET" "/v8/artifacts/abc123" bearer nothing.

Definition head_abc : http.Request := request "HEAD" "/v8/artifacts/abc123" bearer nothing.

(** A hash that leads through the file of [abc123]. *)
Definition get_below : http.Request :=
  request "GET" "/v8/artifacts/abc123/x" bearer nothing.

Definition head_below : http.Request :=
  request "HEAD" "/v8/artifacts/abc123/x" bearer nothing.

(** An upload without [Content-Length], one without a token. *)
Definition put_no_length : http.Request :=
  request "PUT" "/v8/artifacts/abc123" bearer (whole "hello").

Definition put_no_token : http.Request :=
  request "PUT" "/v8/artifacts/abc123" (<["Content-Length" := ["5"]]> ∅) (whole "hello").

(** An empty artifact under [empty], and a query for it. *)
Definition put_empty : http.Request :=
  request "PUT" "/v8/artifacts/empty" (with_length "0") nothing.

Definition disk_empty : os.FS := fst (Store store "empty" nothing disk1).

Definition world_empty : World := {| fsys := disk_empty; logged := [] |}.

Definition post_query (hashes : list string) : http.Request :=
  request "POST" "/v8/artifacts" bearer (whole (plain_json.document hashes)).

End demo.

(** A handler that writes no response line itself and leaves the logging
    writer in step. *)
Definition faithful (next : HandlerFunc) : Prop :=
  ∀ (r : http.Request) (wd : World),
    in_step (next _ _ (newLoggingResponseWriter http.new_response) r wd).1
    ∧ response_codes
        (logged (next _ _ (newLoggingResponseWriter http.new_response) r wd).2)
      = response_codes (logged wd).

(** ** Notions of the further properties *)

(** A hash that is one file name: not empty, not [.] or [..], without a
    separator and without a NUL byte. *)
Definition plain_name (h : string) : Prop :=
  h ≠ "" ∧ h ≠ "." ∧ h ≠ ".."
  ∧ strings.Contains h "/" = false ∧ strings.Contains h os.NUL = false.

(** The cache directory is in place at [dir]: the base path is not empty and
    has no NUL byte, and its elements, taken one by one from the root or
    from the working directory, lead to the directory at [dir]. *)
Definition mounted (st : FileSystemStorage) (fs : os.FS) (dir : os.location) : Prop :=
  basePath st ≠ ""
  ∧ strings.Contains (basePath st) os.NUL = false
  ∧ os.walk (os.root fs) (if filepath.rooted (basePath st) then [] else os.cwd fs)
            (strings.Split "/" (basePath st)) = inr dir
  ∧ os.is_dir (os.root fs) dir = true.

(** A name the file system takes for an entry of the cache directory:
    no longer than a name can be, and the path the store makes of it shorter
    than a path must be. *)
Definition fits (st : FileSystemStorage) (h : string) : Prop :=
  (String.length h ≤ os.NAME_MAX)%nat
  ∧ (String.length (filepath.Join (basePath st) h) < os.PATH_MAX)%nat.



(** Two cache events. *)
Definition hit : ArtifactEvent :=
  {| SessionID := "s1"; Source := "LOCAL"; Event := "HIT"; Hash := "abc123";
     Duration := float_zero |}.

Definition miss : ArtifactEvent :=
  {| SessionID := "s1"; Source := "REMOTE"; Event := "MISS"; Hash := "zzz999";
     Duration := float_zero |}.

(** The line [recordEvents] logs for an event. *)
Definition event_line (event : ArtifactEvent) : logline :=
  LogCacheEvent (Hash event) (Source event) (Event event) (Duration event).

(** The document an accepted upload is answered with. *)
Definition upload_document (hash : string) : json.value :=
  json.Object
    [("urls", json.Array [json.Str ("https://api.vercel.com/v2/now/artifact/" +:+ hash)])].

(** What a download of [hash] would deliver: the bytes [Get]'s reader reads
    to its end, when [Get] succeeds and the read does not fail. *)
Definition content (st : FileSystemStorage) (hash : string) (fs : os.FS)
  : option (list Byte.byte) :=
  match Get st hash fs with
  | inl (f, _) =>
      match fault (os.file_reader f fs) with
      | None => Some (data (os.file_reader f fs))
      | Some _ => None
      end
  | inr _ => None
  end.

(** The server handling one request after another: each call is a handler
    and the request it is run on. *)
Definition serve_all (wd : World) (calls : list (HandlerFunc * http.Request)) : World :=
  foldl (λ wd c, (serve c.1 c.2 wd).2) wd calls.

(** The bytes a list of path elements takes when a separator follows each
    of them. *)
Definition span (elems : list string) : nat :=
  foldr (λ e n, (String.length e + 1 + n)%nat) 0%nat elems.

(** * Properties *)

(** ** The directory tree *)

Module os_facts.
Import os.

Lemma lookup_app (p q : location) (t : node) :
  lookup (p ++ q) t = lookup p t ≫= lookup q.
Proof.
  revert t. induction p as [|c p IH]; intros t; simpl; [done|].
  destruct t as [|m]; [done|].
  destruct (m !! c) as [child|]; simpl; [apply IH | done].
Qed.

Lemma lookup_below_file (q : location) (c : list Byte.byte) :
  q ≠ [] → lookup q (File c) = None.
Proof. destruct q; [done|]. reflexivity. Qed.

Lemma is_dir_parent (t : node) (p : location) (e : string) :
  is_Some (lookup (p ++ [e]) t) → is_dir t p = true.
Proof.
  unfold is_dir. rewrite lookup_app. intros [n Hn].
  destruct (lookup p t) as [[c|m]|]; simpl in *; done.
Qed.

Lemma is_dir_removelast (t : node) (p : location) :
  is_dir t p = true → is_dir t (removelast p) = true.
Proof.
  destruct (decide (p = [])) as [->|Hne]; [done|].
  intros Hd. rewrite (app_removelast_last "" Hne) in Hd.
  apply (is_dir_parent t _ (List.last p "")).
  unfold is_dir in Hd. destruct (lookup _ t); [eauto | done].
Qed.

(** Replacing something that is not a directory by a file, or unlinking
    it, leaves every directory a directory and makes no new one. *)
Lemma is_dir_put (loc : location) (v : option node) (t : node) (q : location) :
  not_dir (lookup loc t) → not_dir v →
  is_dir (put loc v t) q = is_dir t q.
Proof.
  revert t q. induction loc as [|c rest IH]; intros t q Hold Hv.
  - simpl in *. destruct t as [c0|m]; [|done].
    destruct v as [[c1|m1]|]; simpl in *; try done.
    unfold is_dir. destruct q; [done|]. reflexivity.
  - destruct t as [c0|m]; [done|].
    destruct q as [|c' q'].
    { unfold is_dir. simpl. by destruct rest. }
    unfold is_dir. simpl in *.
    destruct (decide (c' = c)) as [->|Hne].
    + destruct rest as [|c2 rest'].
      * rewrite lookup_partial_alter_eq.
        simpl in Hold. destruct (m !! c) as [old|] eqn:Hm; simpl in *.
        -- destruct old as [c0|m0]; [|done].
           destruct v as [[c1|m1]|]; simpl in *; try done;
             destruct q'; done.
        -- destruct v as [[c1|m1]|]; simpl in *; try done.
           destruct q'; done.
      * rewrite lookup_alter_eq.
        destruct (m !! c) as [child|] eqn:Hm; simpl in *; [|done].
        apply (IH child q' Hold Hv).
    + destruct rest as [|c2 rest'].
      * by rewrite lookup_partial_alter_ne.
      * by rewrite lookup_alter_ne.
Qed.

Lemma put_cons (c : string) (rest : location) (v : option node) (m : gmap string node) :
  rest ≠ [] → put (c :: rest) v (Dir m) = Dir (alter (put rest v) c m).
Proof. by destruct rest. Qed.

Lemma lookup_put_eq (parent : location) (e : string) (v : option node) (t : node) :
  is_dir t parent = true →
  lookup (parent ++ [e]) (put (parent ++ [e]) v t) = v.
Proof.
  revert t. induction parent as [|c rest IH]; intros t Hd.
  - unfold is_dir in Hd. simpl in *. destruct t as [|m]; [done|].
    rewrite lookup_partial_alter_eq. by destruct v.
  - unfold is_dir in Hd. simpl in Hd. destruct t as [|m]; [done|].
    destruct (m !! c) as [child|] eqn:Hm; simpl in Hd; [|done].
    rewrite <- app_comm_cons, put_cons by (by destruct rest).
    simpl. rewrite lookup_alter_eq, Hm. simpl. apply IH, Hd.
Qed.

(** A file elsewhere is not touched. *)
Lemma lookup_put_other (loc' loc : location) (v : option node) (t : node)
  (c : list Byte.byte) :
  lookup loc t = Some (File c) → not_dir (lookup loc' t) → loc ≠ loc' →
  lookup loc (put loc' v t) = Some (File c).
Proof.
  revert loc t. induction loc' as [|c' rest' IH]; intros loc t Hl Hnd Hne.
  - simpl in Hnd. destruct t as [c0|m]; [|done].
    destruct loc; [done|]. done.
  - destruct t as [c0|m]; [done|].
    destruct loc as [|c1 rest]; [done|]. simpl in *.
    destruct (decide (c1 = c')) as [->|Hc].
    + destruct (m !! c') as [child|] eqn:Hm; simpl in *; [|done].
      destruct rest' as [|c2 rest''].
      * simpl in Hnd. destruct child as [c0|m0]; [|done].
        destruct rest; [done|]. done.
      * rewrite lookup_alter_eq, Hm. simpl.
        apply IH; [done|done|congruence].
    + destruct rest' as [|c2 rest''].
      * by rewrite lookup_partial_alter_ne.
      * by rewrite lookup_alter_ne.
Qed.

Lemma put_put (loc : location) (v v' : option node) (t : node) :
  loc ≠ [] → put loc v (put loc v' t) = put loc v t.
Proof.
  revert t. induction loc as [|c rest IH]; intros t Hne; [done|].
  destruct t as [c0|m]; [done|].
  destruct rest as [|c2 rest'].
  - simpl. f_equal. by rewrite partial_alter_partial_alter_eq.
  - rewrite !put_cons by done. f_equal.
    rewrite alter_alter_eq. apply alter_ext. intros child _. simpl.
    by apply IH.
Qed.

Lemma walk_mono (t t' : node) (pos : location) (elems : list string) (loc : location) :
  (∀ q, is_dir t q = true → is_dir t' q = true) →
  walk t pos elems = inr loc → walk t' pos elems = inr loc.
Proof.
  intros Hdirs. revert pos. induction elems as [|e rest IH]; intros pos; [done|].
  simpl. specialize (Hdirs pos). unfold is_dir in Hdirs.
  destruct (lookup pos t) as [[c|m]|]; [done| |done].
  destruct (lookup pos t') as [[c'|m']|]; [by specialize (Hdirs eq_refl)| |
                                           by specialize (Hdirs eq_refl)].
  destruct (long_name e); [done|]. apply IH.
Qed.

(** Where a successful walk ends: at a directory, or at a name inside one. *)
Lemma walk_result (t : node) (pos : location) (elems : list string) (loc : location) :
  elems ≠ [] → walk t pos elems = inr loc →
  is_dir t loc = true ∨ ∃ parent e, loc = parent ++ [e] ∧ is_dir t parent = true.
Proof.
  revert pos. induction elems as [|e rest IH]; intros pos Hne; [done|].
  simpl. destruct (lookup pos t) as [[c|m]|] eqn:Hpos; [done| |done].
  assert (Hd : is_dir t pos = true) by (unfold is_dir; by rewrite Hpos).
  destruct (long_name e); [done|].
  destruct rest as [|e' rest']; [|by apply IH].
  unfold step. repeat case_match; intros [= <-].
  - by left.
  - left. by apply is_dir_removelast.
  - right. eauto.
Qed.

Lemma Split_nonempty (sep : ascii) (s : string) : strings.Split sep s ≠ [].
Proof. destruct s; simpl; [done|]. repeat case_match; done. Qed.

Lemma namei_result (fs : FS) (path : string) (loc : location) :
  namei fs path = inr loc →
  is_dir (root fs) loc = true
  ∨ ∃ parent e, loc = parent ++ [e] ∧ is_dir (root fs) parent = true.
Proof.
  unfold namei. repeat case_match; try done; apply walk_result, Split_nonempty.
Qed.

Lemma namei_mono (fs fs' : FS) (path : string) (loc : location) :
  cwd fs' = cwd fs →
  (∀ q, is_dir (root fs) q = true → is_dir (root fs') q = true) →
  namei fs path = inr loc → namei fs' path = inr loc.
Proof.
  unfold namei. intros -> Hd. repeat case_match; try done; by apply walk_mono.
Qed.

End os_facts.

(** ** The store on the tree *)

Module store_facts.
Import os os_facts.

Lemma set_entry_namei (fs : FS) (path : string) (loc at_ : location) (v : option node) :
  not_dir (lookup at_ (root fs)) → not_dir v →
  namei fs path = inr loc → namei (set_entry at_ v fs) path = inr loc.
Proof.
  intros Hold Hv. apply namei_mono; [done|].
  intros q. simpl. by rewrite is_dir_put.
Qed.

Lemma set_entry_lookup (fs : FS) (parent : location) (e : string) (v : option node) :
  is_dir (root fs) parent = true →
  lookup (parent ++ [e]) (root (set_entry (parent ++ [e]) v fs)) = v.
Proof. intros Hd. simpl. by apply lookup_put_eq. Qed.

Lemma set_entry_twice (fs : FS) (loc : location) (v v' : option node) :
  loc ≠ [] → set_entry loc v (set_entry loc v' fs) = set_entry loc v fs.
Proof. intros Hne. unfold set_entry. simpl. by rewrite put_put. Qed.

(** [Store] in closed form.  Either the file cannot be created and the disk
    is as before; or the path names an entry of a directory that is not
    itself a directory, and that entry ends up holding the whole input, or
    unlinked when the copy failed. *)
Lemma Store_cases (st : FileSystemStorage) (hash : string) (body : stream) (fs : FS) :
  (∃ err, Store st hash body fs = (fs, Some (WrapError "failed to create file" err)))
  ∨ (∃ parent e,
        namei fs (filepath.Join (basePath st) hash) = inr (parent ++ [e])
        ∧ is_dir (root fs) parent = true
        ∧ not_dir (lookup (parent ++ [e]) (root fs))
        ∧ Store st hash body fs =
            match fault body with
            | None => (set_entry (parent ++ [e]) (Some (File (data body))) fs, None)
            | Some err => (set_entry (parent ++ [e]) None fs,
                           Some (WrapError "failed to write file" err))
            end).
Proof.
  unfold Store, Create.
  destruct (namei fs _) as [e|loc] eqn:Hn; [left; eauto|].
  destruct (lookup loc (root fs)) as [[c|m]|] eqn:Hl; [|left; eauto|].
  all: right.
  all: destruct (namei_result _ _ _ Hn) as [Hd|(parent & e & -> & Hd)];
    [unfold is_dir in Hd; by rewrite Hl in Hd|].
  all: exists parent, e; split_and!; [done|done|by rewrite Hl|].
  all: assert (Hne : parent ++ [e] ≠ []) by (by destruct parent).
  all: assert (Hnd : not_dir (lookup (parent ++ [e]) (root fs))) by (by rewrite Hl).
  all: unfold io_Copy_to_file, file_Write; cbn [fd_loc];
    rewrite set_entry_lookup by done; cbn [app];
    rewrite set_entry_twice by done.
  all: destruct (fault body) as [err|]; [|done].
  all: unfold Remove;
    rewrite (set_entry_namei fs _ (parent ++ [e]) (parent ++ [e])) by done;
    rewrite set_entry_lookup by done;
    by rewrite set_entry_twice.
Qed.

Lemma Stat_entry (fs : FS) (path : string) (loc : location) :
  namei fs path = inr loc →
  Stat path fs = match lookup loc (root fs) with
                 | Some n => inl (info_of n)
                 | None => inr (PathError "stat" path ENOENT)
                 end.
Proof. unfold Stat. by intros ->. Qed.

Lemma Open_entry (fs : FS) (path : string) (loc : location) :
  namei fs path = inr loc →
  Open path fs = match lookup loc (root fs) with
                 | Some _ => inl (OpenFile loc)
                 | None => inr (PathError "open" path ENOENT)
                 end.
Proof. unfold Open. by intros ->. Qed.

(** After a [Store] that returned no error the artifact is the whole input. *)
Lemma Store_ok (st : FileSystemStorage) (hash : string) (body : stream) (fs fs' : FS) :
  Store st hash body fs = (fs', None) →
  fault body = None
  ∧ ∃ loc, namei fs' (filepath.Join (basePath st) hash) = inr loc
           ∧ lookup loc (root fs') = Some (File (data body)).
Proof.
  destruct (Store_cases st hash body fs) as [[err ->]|(parent & e & Hn & Hd & Hnd & ->)];
    [done|].
  destruct (fault body); [done|]. intros [= <-]. split; [done|].
  exists (parent ++ [e]). split.
  - by apply set_entry_namei.
  - by apply set_entry_lookup.
Qed.

(** After a [Store] whose copy failed the entry is gone. *)
Lemma Store_write_failed (st : FileSystemStorage) (hash : string) (body : stream)
  (fs fs' : FS) (err : error) :
  Store st hash body fs = (fs', Some (WrapError "failed to write file" err)) →
  ∃ loc, namei fs' (filepath.Join (basePath st) hash) = inr loc
         ∧ lookup loc (root fs') = None.
Proof.
  destruct (Store_cases st hash body fs) as [[err' ->]|(parent & e & Hn & Hd & Hnd & ->)];
    [done|].
  destruct (fault body); [|done]. intros [= <- _].
  exists (parent ++ [e]). split.
  - by apply set_entry_namei.
  - by apply set_entry_lookup.
Qed.

Lemma Get_file (st : FileSystemStorage) (hash : string) (fs : FS) (loc : location)
  (c : list Byte.byte) :
  namei fs (filepath.Join (basePath st) hash) = inr loc →
  lookup loc (root fs) = Some (File c) →
  Get st hash fs = inl (OpenFile loc, Z.of_nat (length c)).
Proof.
  intros Hn Hl. unfold Get. rewrite (Open_entry _ _ _ Hn), Hl.
  unfold file_Stat. cbn [fd_loc]. by rewrite Hl.
Qed.

Lemma Get_missing (st : FileSystemStorage) (hash : string) (fs : FS) (loc : location) :
  namei fs (filepath.Join (basePath st) hash) = inr loc →
  lookup loc (root fs) = None →
  Get st hash fs = inr (ErrorString "artifact not found").
Proof. intros Hn Hl. unfold Get. by rewrite (Open_entry _ _ _ Hn), Hl. Qed.

Lemma Exists_entry (st : FileSystemStorage) (hash : string) (fs : FS) (loc : location) :
  namei fs (filepath.Join (basePath st) hash) = inr loc →
  Exists st hash fs = (bool_decide (is_Some (lookup loc (root fs))), None).
Proof.
  intros Hn. unfold Exists. rewrite (Stat_entry _ _ _ Hn).
  destruct (lookup loc (root fs)); done.
Qed.

(** [Store] where the path names an entry of a directory that is not a
    directory itself. *)
Lemma Store_at (st : FileSystemStorage) (hash : string) (body : stream) (fs : FS)
  (parent : location) (e : string) :
  namei fs (filepath.Join (basePath st) hash) = inr (parent ++ [e]) →
  is_dir (root fs) parent = true →
  is_dir (root fs) (parent ++ [e]) = false →
  Store st hash body fs =
    match fault body with
    | None => (set_entry (parent ++ [e]) (Some (File (data body))) fs, None)
    | Some err => (set_entry (parent ++ [e]) None fs,
                   Some (WrapError "failed to write file" err))
    end.
Proof.
  intros Hn Hd Hfree.
  assert (Hnd : not_dir (lookup (parent ++ [e]) (root fs))).
  { unfold is_dir in Hfree. by destruct (lookup _ (root fs)) as [[c|m]|]. }
  assert (Hne : parent ++ [e] ≠ []) by (by destruct parent).
  unfold Store, Create. rewrite Hn.
  assert (Hcreate :
    match lookup (parent ++ [e]) (root fs) with
    | Some (Dir _) =>
        (fs, inr (PathError "open" (filepath.Join (basePath st) hash) EISDIR))
    | _ => (set_entry (parent ++ [e]) (Some (File [])) fs, inl (OpenFile (parent ++ [e])))
    end = (set_entry (parent ++ [e]) (Some (File [])) fs,
           inl (OpenFile (parent ++ [e])) : file + error)).
  { by destruct (lookup (parent ++ [e]) (root fs)) as [[c|m]|]. }
  rewrite Hcreate.
  unfold io_Copy_to_file, file_Write; cbn [fd_loc].
  rewrite set_entry_lookup by done. cbn [app].
  rewrite set_entry_twice by done.
  destruct (fault body) as [err|]; [|done].
  unfold Remove.
  rewrite (set_entry_namei fs _ (parent ++ [e]) (parent ++ [e])) by done.
  rewrite set_entry_lookup by done.
  by rewrite set_entry_twice.
Qed.

End store_facts.

(** ** The contract of the store *)

Section StoreProps.
Import os os_facts store_facts.
Variable st : FileSystemStorage.

(** C3.  When [Store] fails in its copy (the write error of [main.go]),
    nothing is left under the hash: [Exists] answers false without error
    and [Get] reports that the artifact is not found. *)
Theorem C3_failed_write_leaves_nothing (hash : string) (body : stream) (fs fs' : FS)
  (err : error) :
  Store st hash body fs = (fs', Some (WrapError "failed to write file" err)) →
  Exists st hash fs' = (false, None)
  ∧ Get st hash fs' = inr (ErrorString "artifact not found").
Proof.
  intros Hs. destruct (Store_write_failed _ _ _ _ _ _ Hs) as (loc & Hn & Hl).
  split.
  - rewrite (Exists_entry _ _ _ _ Hn), Hl. reflexivity.
  - by apply (Get_missing _ _ _ loc).
Qed.

(** Paths lead to the same entries on disks with the same directories. *)
Lemma same_dirs_namei (fs fs' : FS) (path : string) (loc : location) :
  same_dirs fs fs' → namei fs path = inr loc → namei fs' path = inr loc.
Proof.
  intros [Hcwd Hd]. apply namei_mono; [done|]. intros q. by rewrite Hd.
Qed.

Lemma same_dirs_back (fs fs' : FS) (path : string) (loc : location) :
  same_dirs fs fs' → namei fs' path = inr loc → namei fs path = inr loc.
Proof.
  intros [Hcwd Hd]. apply namei_mono; [done|]. intros q. by rewrite Hd.
Qed.

(** One call that is not interrupted on the file of [hash] keeps the
    directories and the file. *)
Lemma artifact_step (hash : string) (fs1 fs2 : FS) (loc : location) (c : store_call) :
  namei fs1 (filepath.Join (basePath st) hash) = inr loc →
  same_dirs fs1 fs2 →
  (∃ content, lookup loc (root fs2) = Some (File content)) →
  interrupts st fs1 hash c = false →
  same_dirs fs1 (run_call st fs2 c)
  ∧ ∃ content, lookup loc (root (run_call st fs2 c)) = Some (File content).
Proof.
  intros Hn Hsame [content Hl] Hc.
  destruct c as [hash' body| |]; simpl; [|by eauto..].
  destruct (Store_cases st hash' body fs2)
    as [[err ->]|(parent & e & Hn' & Hd & Hnd & ->)]; [by eauto|].
  assert (Hv : not_dir match fault body with
                       | None => Some (File (data body))
                       | Some _ => None
                       end) by (by destruct (fault body)).
  assert (Hdisk : (match fault body with
                   | None => (set_entry (parent ++ [e]) (Some (File (data body))) fs2,
                              None)
                   | Some err => (set_entry (parent ++ [e]) None fs2,
                                  Some (WrapError "failed to write file" err))
                   end).1
                  = set_entry (parent ++ [e])
                      match fault body with
                      | None => Some (File (data body))
                      | Some _ => None
                      end fs2) by (by destruct (fault body)).
  rewrite Hdisk. split.
  - destruct Hsame as [Hcwd Hdirs]. split; [done|].
    intros q. simpl. by rewrite is_dir_put.
  - destruct (decide (loc = parent ++ [e])) as [->|Hne].
    + simpl in Hc. rewrite (same_dirs_back _ _ _ _ Hsame Hn'), Hn in Hc.
      rewrite (bool_decide_eq_true_2 (parent ++ [e] = parent ++ [e])) in Hc by done.
      rewrite andb_true_r in Hc. apply bool_decide_eq_false in Hc.
      destruct (fault body) as [err|]; [by destruct Hc|].
      exists (data body). simpl. by apply lookup_put_eq.
    + exists content. simpl. by apply lookup_put_other.
Qed.

Lemma artifact_kept (hash : string) (fs1 : FS) (loc : location) (cs : list store_call)
  (fs2 : FS) :
  namei fs1 (filepath.Join (basePath st) hash) = inr loc →
  Forall (λ c, interrupts st fs1 hash c = false) cs →
  same_dirs fs1 fs2 →
  (∃ content, lookup loc (root fs2) = Some (File content)) →
  same_dirs fs1 (run_calls st fs2 cs)
  ∧ ∃ content, lookup loc (root (run_calls st fs2 cs)) = Some (File content).
Proof.
  unfold run_calls. intros Hn Hcs. revert fs2.
  induction Hcs as [|c cs Hc _ IH]; intros fs2 Hsame Hl; [done|].
  simpl. destruct (artifact_step hash fs1 fs2 loc c Hn Hsame Hl Hc) as [Hsame' Hl'].
  by apply IH.
Qed.

(** C4, amended.  Once a payload was stored under [hash], an artifact is
    there after every later sequence of [Store], [Get] and [Exists] calls
    in which no [Store] is interrupted on the file of [hash]: a [Store] that
    breaks off on any other file leaves it in place.  The exception is
    needed: one more [Store] that is interrupted on that file removes the
    artifact.  Which file a path leads to is read on the disk as the first
    [Store] left it; no later call makes or removes a directory, so every
    path leads to the same entry throughout ([same_dirs_namei]). *)
Theorem C4_stored_artifact_stays (hash : string) (body : stream) (fs fs1 : FS)
  (cs : list store_call) :
  Store st hash body fs = (fs1, None) →
  Forall (λ c, interrupts st fs1 hash c = false) cs →
  Exists st hash (run_calls st fs1 cs) = (true, None)
  ∧ ∀ c, interrupts st fs1 hash c = true →
         Exists st hash (run_call st (run_calls st fs1 cs) c) = (false, None).
Proof.
  intros Hs Hcs.
  destruct (Store_ok _ _ _ _ _ Hs) as (_ & loc & Hn & Hl).
  destruct (artifact_kept hash fs1 loc cs fs1 Hn Hcs) as [Hsame [content Hl']];
    [done|by eauto|].
  pose proof (same_dirs_namei _ _ _ _ Hsame Hn) as Hn'.
  split; [by rewrite (Exists_entry _ _ _ _ Hn'), Hl'|].
  intros c Hc. destruct c as [hash' body'| |]; [|done..].
  simpl in Hc. apply andb_true_iff in Hc as [Hbroken Hsame_file].
  apply bool_decide_eq_true in Hbroken.
  destruct (namei fs1 (filepath.Join (basePath st) hash')) as [e'|loc'] eqn:Hn1;
    [done|].
  rewrite Hn in Hsame_file. apply bool_decide_eq_true in Hsame_file. subst loc'.
  pose proof (same_dirs_namei _ _ _ _ Hsame Hn1) as Hn2.
  destruct (namei_result _ _ _ Hn') as [Hdir|(parent & e & -> & Hd)].
  { unfold is_dir in Hdir. by rewrite Hl' in Hdir. }
  simpl. rewrite (Store_at st hash' body' _ parent e Hn2 Hd)
    by (unfold is_dir; by rewrite Hl').
  destruct (fault body') as [err|]; [|done]. simpl.
  rewrite (Exists_entry st hash _ (parent ++ [e])).
  - by rewrite set_entry_lookup.
  - apply set_entry_namei; [by rewrite Hl'|done|done].
Qed.

End StoreProps.

Lemma C3_witness :
  Store demo.store "abc123" (demo.broken "he") demo.disk1
  = (demo.disk0, Some (WrapError "failed to write file" (ErrorString "unexpected EOF")))
  ∧ Exists demo.store "abc123" demo.disk0 = (false, None)
  ∧ Get demo.store "abc123" demo.disk0 = inr (ErrorString "artifact not found").
Proof.
  assert (H : Store demo.store "abc123" (demo.broken "he") demo.disk1
              = (demo.disk0,
                 Some (WrapError "failed to write file" (ErrorString "unexpected EOF"))))
    by (vm_compute; reflexivity).
  split; [exact H|].
  exact (C3_failed_write_leaves_nothing demo.store "abc123" (demo.broken "he")
           demo.disk1 demo.disk0 (ErrorString "unexpected EOF") H).
Defined.

(** C4 as stated fails: a later [Store] under the same hash that breaks off
    removes the artifact that was there. *)
Lemma C4_counterexample :
  Store demo.store "abc123" (demo.whole "hello") demo.disk0 = (demo.disk1, None)
  ∧ Exists demo.store "abc123" demo.disk1 = (true, None)
  ∧ Exists demo.store "abc123"
      (run_calls demo.store demo.disk1 [CallStore "abc123" (demo.broken "he")])
    = (false, None).
Proof. vm_compute. done. Qed.

Lemma C4_witness :
  Store demo.store "abc123" (demo.whole "hello") demo.disk0 = (demo.disk1, None)
  ∧ Exists demo.store "abc123"
      (run_calls demo.store demo.disk1
         [CallGet "abc123"; CallStore "zzz999" (demo.broken "ot");
          CallStore "abc123" (demo.whole "again"); CallStore "" (demo.whole "x");
          CallExists "zzz999"])
    = (true, None)
  ∧ Exists demo.store "abc123"
      (run_call demo.store
         (run_calls demo.store demo.disk1
            [CallGet "abc123"; CallStore "zzz999" (demo.broken "ot");
             CallStore "abc123" (demo.whole "again"); CallStore "" (demo.whole "x");
             CallExists "zzz999"])
         (CallStore "./abc123" (demo.broken "he")))
    = (false, None).
Proof.
  assert (H : Store demo.store "abc123" (demo.whole "hello") demo.disk0
              = (demo.disk1, None)) by (vm_compute; reflexivity).
  split; [exact H|].
  destruct (C4_stored_artifact_stays demo.store "abc123" (demo.whole "hello")
              demo.disk0 demo.disk1
              [CallGet "abc123"; CallStore "zzz999" (demo.broken "ot");
               CallStore "abc123" (demo.whole "again"); CallStore "" (demo.whole "x");
               CallExists "zzz999"] H) as [Hstays Hgone].
  { repeat constructor; vm_compute; reflexivity. }
  split; [exact Hstays|].
  apply Hgone. vm_compute. reflexivity.
Defined.

(** ** Prefixes *)

Module strings_facts.
Import strings.

Lemma append_nil (t : string) : "" +:+ t = t.
Proof. reflexivity. Qed.

Lemma append_cons (a : ascii) (p t : string) : String a p +:+ t = String a (p +:+ t).
Proof. reflexivity. Qed.

Lemma prefix_nil (t : string) : String.prefix "" t = true.
Proof. by destruct t. Qed.

Lemma HasPrefix_app (p t : string) : HasPrefix (p +:+ t) p = true.
Proof.
  unfold HasPrefix. induction p as [|a p IH]; [apply prefix_nil|].
  rewrite append_cons. simpl. by destruct (ascii_dec a a).
Qed.

Lemma HasPrefix_inv (s p : string) : HasPrefix s p = true → ∃ t, s = p +:+ t.
Proof.
  unfold HasPrefix. revert s. induction p as [|a p IH]; intros s.
  - intros _. by exists s.
  - destruct s as [|b s]; [done|]. simpl.
    destruct (ascii_dec a b) as [->|]; [|done].
    intros Hp. destruct (IH s Hp) as [t ->]. by exists t.
Qed.

Lemma substring_all (t : string) : String.substring 0 (String.length t) t = t.
Proof. induction t as [|a t IH]; simpl; [done|]. by rewrite IH. Qed.

Lemma length_append (p t : string) :
  String.length (p +:+ t) = (String.length p + String.length t)%nat.
Proof.
  induction p as [|a p IH]; [done|]. rewrite append_cons. simpl. by rewrite IH.
Qed.

Lemma TrimPrefix_app (p t : string) : TrimPrefix (p +:+ t) p = t.
Proof.
  unfold TrimPrefix. rewrite HasPrefix_app, length_append.
  replace (String.length p + String.length t - String.length p)%nat
    with (String.length t) by lia.
  induction p as [|a p IH]; [apply substring_all|].
  rewrite append_cons. simpl. apply IH.
Qed.

(** The two tests of the gate together: the header is the word [Bearer], a
    space and the token. *)
Lemma bearer_spec (auth tok : string) :
  HasPrefix auth "Bearer " = true ∧ TrimPrefix auth "Bearer " = tok
  ↔ auth = "Bearer " +:+ tok.
Proof.
  split.
  - intros [Hp Ht]. destruct (HasPrefix_inv _ _ Hp) as [t ->].
    rewrite TrimPrefix_app in Ht. by subst.
  - intros ->. split; [apply HasPrefix_app | apply TrimPrefix_app].
Qed.

End strings_facts.

(** ** The gate *)

Section GateProps.
Import strings_facts.
Variable s : Server.

Lemma handleAuth_rejects (next : HandlerFunc) (r : http.Request) (wd : World) :
  http.Header_Get (http.ReqHeader r) "Authorization" ≠ "Bearer " +:+ token s →
  ∃ text,
    handleAuth s next _ _ http.new_response r wd
    = (ResponseWriter_
         (http.Error (newLoggingResponseWriter http.new_response)
                     "Unauthorized" http.StatusUnauthorized),
       Printf (LogResponse http.StatusUnauthorized text)
              (Printf (LogRequest (http.Method r) (http.URL_Path r)) wd)).
Proof.
  intros Hauth. unfold handleAuth.
  destruct (strings.HasPrefix _ "Bearer ") eqn:Hp; simpl; [|eauto].
  rewrite bool_decide_eq_false_2; simpl; [eauto|].
  intros Ht. apply Hauth. by apply bearer_spec.
Qed.

Lemma handleAuth_admits (next : HandlerFunc) (r : http.Request) (wd : World) :
  http.Header_Get (http.ReqHeader r) "Authorization" = "Bearer " +:+ token s →
  handleAuth s next _ _ http.new_response r wd
  = let '(lrw, wd') :=
      next _ _ (newLoggingResponseWriter http.new_response) r
           (Printf (LogRequest (http.Method r) (http.URL_Path r)) wd) in
    (ResponseWriter_ lrw,
     Printf (LogResponse (statusCode lrw) (http.StatusText (statusCode lrw))) wd').
Proof.
  intros Hauth. apply bearer_spec in Hauth as [Hp Ht].
  unfold handleAuth. rewrite Hp. simpl. by rewrite bool_decide_eq_true_2.
Qed.

Lemma serve_rejects (next : HandlerFunc) (r : http.Request) (wd : World) :
  http.Header_Get (http.ReqHeader r) "Authorization" ≠ "Bearer " +:+ token s →
  http.status (serve (handleAuth s next) r wd).1 = http.StatusUnauthorized
  ∧ fsys (serve (handleAuth s next) r wd).2 = fsys wd.
Proof.
  intros Hauth. unfold serve.
  destruct (handleAuth_rejects next r wd Hauth) as [text ->]. done.
Qed.

Lemma serve_admits (next : HandlerFunc) (r : http.Request) (wd : World) :
  http.Header_Get (http.ReqHeader r) "Authorization" = "Bearer " +:+ token s →
  serve (handleAuth s next) r wd
  = let '(lrw, wd') :=
      next _ _ (newLoggingResponseWriter http.new_response) r
           (Printf (LogRequest (http.Method r) (http.URL_Path r)) wd) in
    (http.finishRequest (ResponseWriter_ lrw),
     Printf (LogResponse (statusCode lrw) (http.StatusText (statusCode lrw))) wd').
Proof.
  intros Hauth. unfold serve. rewrite (handleAuth_admits next r wd Hauth).
  by destruct (next _ _ _ r _).
Qed.

(** C2.  Whatever the wrapped handler and the request: when the
    [Authorization] header is not [Bearer] followed by the configured token
    (absent, of another form, or another token), the answer is 401, the
    disk is untouched and the outcome is the same for every handler, so the
    handler is not run; when it is, the handler runs on the request itself
    and on the logging writer around the server's. *)
Theorem C2_gate (next : HandlerFunc) (r : http.Request) (wd : World) :
  (http.Header_Get (http.ReqHeader r) "Authorization" ≠ "Bearer " +:+ token s →
     http.status (serve (handleAuth s next) r wd).1 = http.StatusUnauthorized
     ∧ fsys (serve (handleAuth s next) r wd).2 = fsys wd
     ∧ ∀ next' : HandlerFunc,
         serve (handleAuth s next') r wd = serve (handleAuth s next) r wd)
  ∧ (http.Header_Get (http.ReqHeader r) "Authorization" = "Bearer " +:+ token s →
     serve (handleAuth s next) r wd
     = let '(lrw, wd') :=
         next _ _ (newLoggingResponseWriter http.new_response) r
              (Printf (LogRequest (http.Method r) (http.URL_Path r)) wd) in
       (http.finishRequest (ResponseWriter_ lrw),
        Printf (LogResponse (statusCode lrw) (http.StatusText (statusCode lrw))) wd')).
Proof.
  split; intros Hauth; [|by apply serve_admits].
  destruct (serve_rejects next r wd Hauth) as [Hcode Hdisk].
  split_and!; [done|done|].
  intros next'. unfold serve, handleAuth.
  destruct (strings.HasPrefix _ "Bearer ") eqn:Hp; simpl; [|done].
  rewrite bool_decide_eq_false_2; [done|].
  intros Ht. apply Hauth. by apply bearer_spec.
Qed.

End GateProps.

(** ** The artifact handlers *)

Section ArtifactProps.
Import strings_facts.
Variable s : Server.

(** An admitted request for the artifact path, by its method. *)
Lemma serve_artifact (r : http.Request) (wd : World) :
  http.Header_Get (http.ReqHeader r) "Authorization" = "Bearer " +:+ token s →
  serve (handleAuth s (λ W _, handleArtifact s)) r wd
  = let '(lrw, wd') :=
      handleArtifact s (newLoggingResponseWriter http.new_response) r
                     (Printf (LogRequest (http.Method r) (http.URL_Path r)) wd) in
    (http.finishRequest (ResponseWriter_ lrw),
     Printf (LogResponse (statusCode lrw) (http.StatusText (statusCode lrw))) wd').
Proof. apply (serve_admits s (λ W _, handleArtifact s)). Qed.

(** C7.  An upload whose request has no [Content-Length] header is answered
    with 400 and nothing else happens: on every writer, [uploadArtifact]
    returns the error response and the disk and log it was given, whatever
    the hash and the body; the whole admitted PUT request is answered with
    400 and leaves the disk as it was. *)
Theorem C7_upload_needs_content_length {W : Type} `{http.ResponseWriter W} (w : W)
  (r : http.Request) (hash : string) (wd : World) :
  http.Header_Get (http.ReqHeader r) "Content-Length" = "" →
  uploadArtifact s w r hash wd
  = (http.Error w "Content-Length required" http.StatusBadRequest, wd)
  ∧ (http.Method r = http.MethodPut →
     http.Header_Get (http.ReqHeader r) "Authorization" = "Bearer " +:+ token s →
     http.status (serve (handleAuth s (λ W _, handleArtifact s)) r wd).1
     = http.StatusBadRequest
     ∧ fsys (serve (handleAuth s (λ W _, handleArtifact s)) r wd).2 = fsys wd).
Proof.
  intros Hcl. split.
  - unfold uploadArtifact. by rewrite Hcl.
  - intros Hm Hauth. rewrite (serve_artifact r wd Hauth).
    unfold handleArtifact, uploadArtifact. rewrite Hm, Hcl. simpl. done.
Qed.

(** C8.  An admitted HEAD request for [/v8/artifacts/hash] is answered
    with 200 and no body when [Exists] says true, with 404 when it says
    false, and with 500 when it fails; the disk is not changed. *)
Theorem C8_head_reports_exists (r : http.Request) (hash : string) (wd : World) :
  http.Method r = http.MethodHead →
  http.URL_Path r = "/v8/artifacts/" +:+ hash →
  http.Header_Get (http.ReqHeader r) "Authorization" = "Bearer " +:+ token s →
  let answer := (serve (handleAuth s (λ W _, handleArtifact s)) r wd).1 in
  match Exists (storage s) hash (fsys wd) with
  | (true, None) => http.status answer = http.StatusOK ∧ http.written answer = []
  | (false, None) => http.status answer = http.StatusNotFound
  | (_, Some _) => http.status answer = http.StatusInternalServerError
  end
  ∧ fsys (serve (handleAuth s (λ W _, handleArtifact s)) r wd).2 = fsys wd.
Proof.
  intros Hm Hp Hauth. simpl. rewrite (serve_artifact r wd Hauth).
  unfold handleArtifact, checkArtifact. rewrite Hm, Hp, TrimPrefix_app. simpl.
  destruct (Exists (storage s) hash (fsys wd)) as [[|] [err|]]; simpl; done.
Qed.

(** What an accepted upload did: only a [Store] that returned no error is
    answered with 202. *)
Lemma upload_accepted (r : http.Request) (wd : World) :
  http.status (serve (handleAuth s (λ W _, handleArtifact s)) r wd).1
  = http.StatusAccepted →
  Store (storage s) (strings.TrimPrefix (http.URL_Path r) "/v8/artifacts/")
        (http.Body r) (fsys wd)
  = (fsys (serve (handleAuth s (λ W _, handleArtifact s)) r wd).2, None).
Proof.
  destruct (decide (http.Header_Get (http.ReqHeader r) "Authorization"
                    = "Bearer " +:+ token s)) as [Hauth|Hauth].
  2:{ by destruct (serve_rejects s (λ W _, handleArtifact s) r wd Hauth) as [-> _]. }
  rewrite (serve_artifact r wd Hauth). unfold handleArtifact.
  repeat case_bool_decide.
  - unfold downloadArtifact.
    destruct (Get _ _ _) as [[reader size]|err]; [|done]. simpl.
    destruct (os.file_reader _ _) as [[|b bs] [e|]]; done.
  - unfold uploadArtifact. case_bool_decide; [done|]. simpl.
    destruct (Store _ _ _ _) as [fs' [err|]]; done.
  - unfold checkArtifact. simpl.
    destruct (Exists _ _ _) as [[|] [err|]]; done.
  - done.
Qed.

(** What an admitted GET answers when the artifact is a file. *)
Lemma download_file (r : http.Request) (hash : string) (wd : World) (loc : os.location)
  (content : list Byte.byte) :
  http.Method r = http.MethodGet →
  http.URL_Path r = "/v8/artifacts/" +:+ hash →
  http.Header_Get (http.ReqHeader r) "Authorization" = "Bearer " +:+ token s →
  os.namei (fsys wd) (filepath.Join (basePath (storage s)) hash) = inr loc →
  os.lookup loc (os.root (fsys wd)) = Some (os.File content) →
  let answer := (serve (handleAuth s (λ W _, handleArtifact s)) r wd).1 in
  http.status answer = http.StatusOK
  ∧ http.raw_body (http.written answer) = Some content
  ∧ http.Header_Get (http.sentHeader answer) "Content-Length"
    = pretty (Z.of_nat (length content))
  ∧ http.Header_Get (http.sentHeader answer) "Content-Type" = "application/octet-stream".
Proof.
  intros Hm Hp Hauth Hn Hl. simpl. rewrite (serve_artifact r wd Hauth).
  unfold handleArtifact, downloadArtifact. rewrite Hm, Hp, TrimPrefix_app. simpl.
  rewrite (store_facts.Get_file _ _ _ loc content) by done.
  unfold os.file_reader. cbn [os.fd_loc fsys Printf]. rewrite Hl.
  unfold http.io_Copy. cbn [data fault].
  destruct content as [|b bs]; simpl.
  - done.
  - by rewrite app_nil_r.
Qed.

(** C1, amended.  When the upload of a body under [h] is answered with 202,
    an admitted GET of [h] that follows is answered with 200, exactly the
    bytes of the body, and their number as [Content-Length]. *)
Theorem C1_round_trip (h : string) (put get : http.Request) (wd : World) :
  http.URL_Path put = "/v8/artifacts/" +:+ h →
  http.status (serve (handleAuth s (λ W _, handleArtifact s)) put wd).1
  = http.StatusAccepted →
  http.Method get = http.MethodGet →
  http.URL_Path get = "/v8/artifacts/" +:+ h →
  http.Header_Get (http.ReqHeader get) "Authorization" = "Bearer " +:+ token s →
  let after := (serve (handleAuth s (λ W _, handleArtifact s)) put wd).2 in
  let answer := (serve (handleAuth s (λ W _, handleArtifact s)) get after).1 in
  http.status answer = http.StatusOK
  ∧ http.raw_body (http.written answer) = Some (data (http.Body put))
  ∧ http.Header_Get (http.sentHeader answer) "Content-Length"
    = pretty (Z.of_nat (length (data (http.Body put)))).
Proof.
  intros Hp Hok Hm Hp' Hauth after answer.
  pose proof (upload_accepted put wd Hok) as Hs.
  rewrite Hp, TrimPrefix_app in Hs.
  destruct (store_facts.Store_ok _ _ _ _ _ Hs) as (_ & loc & Hn & Hl).
  destruct (download_file get h after loc (data (http.Body put)) Hm Hp' Hauth Hn Hl)
    as (H1 & H2 & H3 & _).
  done.
Qed.



End ArtifactProps.

(** C1 as stated fails for the empty hash: the path is the cache directory
    itself, the upload is answered with 500 and the download with no byte. *)
Lemma C1_counterexample :
  http.status (serve demo.artifact demo.put_root demo.start).1
  = http.StatusInternalServerError
  ∧ http.raw_body
      (http.written
         (serve demo.artifact demo.get_root
                (serve demo.artifact demo.put_root demo.start).2).1)
    = Some []
  ∧ data (http.Body demo.put_root) ≠ [].
Proof. vm_compute. done. Qed.

Lemma C1_witness :
  http.status (serve demo.artifact demo.put_abc demo.start).1 = http.StatusAccepted
  ∧ http.raw_body
      (http.written
         (serve demo.artifact demo.get_abc
                (serve demo.artifact demo.put_abc demo.start).2).1)
    = Some (demo.bytes "hello").
Proof.
  assert (H : http.status (serve demo.artifact demo.put_abc demo.start).1
              = http.StatusAccepted) by (vm_compute; reflexivity).
  split; [exact H|].
  refine (proj1 (proj2 (C1_round_trip demo.server "abc123" demo.put_abc demo.get_abc
                          demo.start _ H _ _ _))); reflexivity.
Defined.

Lemma C2_witness :
  http.status (serve demo.artifact demo.put_no_token demo.start).1
  = http.StatusUnauthorized
  ∧ http.status (serve demo.artifact demo.put_abc demo.start).1 = http.StatusAccepted.
Proof.
  split.
  - refine (proj1 (proj1 (C2_gate demo.server (λ W _, handleArtifact demo.server)
                            demo.put_no_token demo.start) _)).
    vm_compute. discriminate.
  - unfold demo.artifact.
    rewrite (proj2 (C2_gate demo.server (λ W _, handleArtifact demo.server)
                      demo.put_abc demo.start) eq_refl).
    vm_compute. reflexivity.
Defined.



(** The scenario of the specification: upload, download, existence check. *)
Lemma scenario_run :
  (http.status (serve demo.artifact demo.put_abc demo.start).1 = http.StatusAccepted
   ∧ http.written (serve demo.artifact demo.put_abc demo.start).1
     = [http.JSONText
          (json.Object
             [("urls",
               json.Array [json.Str "https://api.vercel.com/v2/now/artifact/abc123"])])])
  ∧ (http.status (serve demo.artifact demo.get_abc demo.world1).1 = http.StatusOK
     ∧ http.Header_Get (http.sentHeader (serve demo.artifact demo.get_abc demo.world1).1)
                       "Content-Length" = "5"
     ∧ http.written (serve demo.artifact demo.get_abc demo.world1).1
       = [http.Bytes (demo.bytes "hello")])
  ∧ (http.status (serve demo.artifact demo.head_abc demo.world1).1 = http.StatusOK
     ∧ http.written (serve demo.artifact demo.head_abc demo.world1).1 = []).
Proof. vm_compute. done. Qed.

Lemma C7_witness :
  http.Header_Get (http.ReqHeader demo.put_no_length) "Content-Length" = ""
  ∧ http.status (serve demo.artifact demo.put_no_length demo.start).1
    = http.StatusBadRequest
  ∧ fsys (serve demo.artifact demo.put_no_length demo.start).2 = demo.disk0.
Proof.
  split; [reflexivity|].
  apply (C7_upload_needs_content_length demo.server http.new_response
           demo.put_no_length "abc123" demo.start); reflexivity.
Defined.

Lemma C8_witness :
  http.status (serve demo.artifact demo.head_abc demo.world1).1 = http.StatusOK
  ∧ http.written (serve demo.artifact demo.head_abc demo.world1).1 = [].
Proof.
  pose proof (C8_head_reports_exists demo.server demo.head_abc "abc123" demo.world1
                eq_refl eq_refl eq_refl) as [H _].
  exact H.
Defined.

(** ** The log *)

Section LoggerProps.
Context `{Decoders}.
Variable s : Server.

Lemma response_codes_Printf (l : logline) (wd : World) :
  response_codes (logged (Printf l wd))
  = response_codes (logged wd)
    ++ match l with LogResponse code _ => [code] | _ => [] end.
Proof.
  unfold response_codes, Printf. simpl. rewrite omap_app. simpl.
  by destruct l.
Qed.

Lemma response_codes_snoc (l : logline) (log : list logline) :
  response_codes (log ++ [l])
  = response_codes log ++ match l with LogResponse code _ => [code] | _ => [] end.
Proof. apply (response_codes_Printf l {| fsys := demo.blank; logged := log |}). Qed.

Lemma response_codes_events (events : list ArtifactEvent) (wd : World) :
  response_codes
    (logged (foldl (λ wd event,
                      Printf (LogCacheEvent (Hash event) (Source event)
                                            (Event event) (Duration event)) wd)
                   wd events))
  = response_codes (logged wd).
Proof.
  revert wd. induction events as [|e events IH]; intros wd; [done|].
  simpl. rewrite IH, response_codes_Printf. by rewrite app_nil_r.
Qed.

Lemma gate_logs_once (next : HandlerFunc) (r : http.Request) (wd : World) :
  faithful next →
  response_codes (logged (serve (handleAuth s next) r wd).2)
  = response_codes (logged wd) ++ [http.status (serve (handleAuth s next) r wd).1].
Proof.
  intros Hnext.
  destruct (decide (http.Header_Get (http.ReqHeader r) "Authorization"
                    = "Bearer " +:+ token s)) as [Hauth|Hauth].
  - rewrite (serve_admits s next r wd Hauth).
    destruct (Hnext r (Printf (LogRequest (http.Method r) (http.URL_Path r)) wd))
      as [Hstep Hlog].
    destruct (next _ _ _ r _) as [lrw wd']. cbn [fst snd] in *.
    rewrite response_codes_Printf, Hlog, response_codes_Printf, app_nil_r.
    by rewrite Hstep.
  - unfold serve. destruct (handleAuth_rejects s next r wd Hauth) as [text ->].
    cbn [fst snd]. rewrite !response_codes_Printf, app_nil_r. done.
Qed.

Lemma recordEvents_faithful : faithful (λ W _, recordEvents).
Proof.
  intros r wd. unfold recordEvents.
  case_bool_decide; simpl; [|done].
  destruct (DecodeEvents (http.Body r)) as [events|err]; simpl; [|done].
  split; [done|]. apply response_codes_events.
Qed.

Lemma getStatus_faithful : faithful (λ W _, getStatus).
Proof. intros r wd. unfold getStatus. case_bool_decide; done. Qed.

Lemma handleArtifact_faithful : faithful (λ W _, handleArtifact s).
Proof.
  intros r wd. unfold handleArtifact. repeat case_bool_decide.
  - unfold downloadArtifact.
    destruct (Get _ _ _) as [[reader size]|err]; simpl.
    + destruct (os.file_reader _ _) as [[|b bs] [e|]]; simpl;
        rewrite ?response_codes_snoc, ?app_nil_r; done.
    + by rewrite response_codes_snoc, app_nil_r.
  - unfold uploadArtifact. case_bool_decide; [done|].
    destruct (Store _ _ _ _) as [fs' [err|]]; simpl;
      rewrite ?response_codes_snoc, ?app_nil_r; done.
  - unfold checkArtifact.
    destruct (Exists _ _ _) as [[|] [err|]]; simpl;
      rewrite ?response_codes_snoc, ?app_nil_r; done.
  - done.
Qed.

Lemma queryArtifacts_faithful : faithful (λ W _, queryArtifacts s).
Proof.
  intros r wd. unfold queryArtifacts.
  case_bool_decide; simpl; [|done].
  destruct (DecodeQuery (http.Body r)) as [req|err]; done.
Qed.

(** C9.  For each of the four routes [main] registers and every request,
    the handler adds exactly one response line to the log, and the code on
    it is the status of the response that goes out: rejected or admitted,
    whether the handler called [WriteHeader], only [Write], or neither. *)
Theorem C9_one_response_line (pattern : string) (h : HandlerFunc)
  (r : http.Request) (wd : World) :
  (pattern, h) ∈ routes s →
  response_codes (logged (serve h r wd).2)
  = response_codes (logged wd) ++ [http.status (serve h r wd).1].
Proof.
  unfold routes. rewrite !elem_of_cons, elem_of_nil.
  intros [[= -> ->]|[[= -> ->]|[[= -> ->]|[[= -> ->]|[]]]]];
    apply gate_logs_once.
  - apply recordEvents_faithful.
  - apply getStatus_faithful.
  - apply handleArtifact_faithful.
  - apply queryArtifacts_faithful.
Qed.

End LoggerProps.

Lemma C9_witness :
  response_codes
    (logged (serve (handleAuth demo.server (λ W _, handleArtifact demo.server))
                   demo.get_below demo.world1).2)
  = [http.StatusNotFound]
  ∧ http.status (serve (handleAuth demo.server (λ W _, handleArtifact demo.server))
                       demo.get_below demo.world1).1
    = http.StatusNotFound.
Proof.
  pose proof (@C9_one_response_line plain_json.decoders demo.server "/v8/artifacts/"
                (handleAuth demo.server (λ W _, handleArtifact demo.server))
                demo.get_below demo.world1) as Hone.
  split.
  - rewrite Hone; [vm_compute; reflexivity|].
    unfold routes. do 2 apply list_elem_of_further. apply list_elem_of_here.
  - vm_compute. reflexivity.
Defined.

(** ** The bulk query *)

Module json_facts.
Import json.

Lemma assoc_elem_of (k : string) (v : value) (l : list (string * value)) :
  NoDup l.*1 → assoc k l = Some v ↔ (k, v) ∈ l.
Proof.
  induction l as [|[k' v'] l IH]; simpl.
  - intros _. split; [done|]. by intros ?%elem_of_nil.
  - intros [Hk Hl]%NoDup_cons. rewrite elem_of_cons.
    case_bool_decide as Hkk; subst.
    + split; [intros [= ->]; by left|].
      intros [[= ->]|Hin]; [done|].
      destruct Hk. apply list_elem_of_fmap. by exists (k, v).
    + rewrite (IH Hl). split; [by right|].
      intros [[= -> ->]|Hin]; done.
Qed.

Lemma of_map_members (m : gmap string value) :
  ∃ l, of_map m = Object l ∧ l ≡ₚ map_to_list m ∧ NoDup l.*1.
Proof.
  exists (merge_sort key_le (map_to_list m)). split_and!; [done|..].
  - apply merge_sort_Permutation.
  - rewrite merge_sort_Permutation. apply NoDup_fst_map_to_list.
Qed.

(** Reading a member of the object written for a map is looking the key up
    in the map. *)
Lemma member_of_map (m : gmap string value) (k : string) :
  member k (of_map m) = m !! k.
Proof.
  destruct (of_map_members m) as (l & -> & Hp & Hnd). simpl.
  apply option_eq. intros v.
  rewrite (assoc_elem_of _ _ _ Hnd), Hp. apply elem_of_map_to_list.
Qed.

Lemma keys_of_map (m : gmap string value) :
  NoDup (keys (of_map m)) ∧ ∀ k, k ∈ keys (of_map m) ↔ is_Some (m !! k).
Proof.
  destruct (of_map_members m) as (l & -> & Hp & Hnd). simpl.
  split; [done|]. intros k. rewrite Hp, list_elem_of_fmap. split.
  - intros ([k' v] & -> & Hin). exists v. by apply elem_of_map_to_list.
  - intros [v Hv]. exists (k, v). split; [done|]. by apply elem_of_map_to_list.
Qed.

End json_facts.

Section QueryProps.
Context `{Decoders}.
Variable s : Server.

Lemma query_step_insert (fs : os.FS) (m : gmap string ArtifactInfo) (hash : string) :
  query_step s fs m hash = <[hash := query_info (storage s) fs hash]> m.
Proof. unfold query_step, query_info. by destruct (Get _ _ _) as [[? ?]|?]. Qed.

(** After the loop every requested hash has the entry of its own [Get], and
    nothing else was added. *)
Lemma query_loop_lookup (fs : os.FS) (hashes : list string) (m : gmap string ArtifactInfo)
  (h : string) :
  foldl (query_step s fs) m hashes !! h
  = if decide (h ∈ hashes) then Some (query_info (storage s) fs h) else m !! h.
Proof.
  revert m. induction hashes as [|x hashes IH]; intros m.
  - case_decide as Hin; [by apply elem_of_nil in Hin|done].
  - cbn [foldl]. rewrite IH, query_step_insert.
    destruct (decide (h ∈ hashes)) as [Hin|Hin].
    + by rewrite decide_True by (by right).
    + destruct (decide (x = h)) as [->|Hne].
      * rewrite lookup_insert_eq. by rewrite decide_True by (by left).
      * rewrite lookup_insert_ne by done.
        rewrite decide_False; [done|]. intros [->|?]%elem_of_cons; done.
Qed.

Lemma marshal_query_info (fs : os.FS) (h : string) :
  marshal_ArtifactInfo (query_info (storage s) fs h)
  = expected_entry (Get (storage s) h fs).
Proof.
  unfold query_info, expected_entry, marshal_ArtifactInfo.
  destruct (Get _ _ _) as [[f size]|err]; simpl; [|done].
  by case_bool_decide.
Qed.

(** C6, amended.  An admitted POST whose body decodes to a list of hashes
    is answered with 200 and one JSON object.  The object has exactly one
    member for each requested hash, and the member of a hash is decided by
    the [Get] of that hash alone: the size if it is not zero, an object
    without members for an artifact of no bytes, the error message when
    [Get] fails.  The disk is not changed. *)
Theorem C6_query_entries (r : http.Request) (req : ArtifactQueryRequest) (wd : World) :
  http.Method r = http.MethodPost →
  http.Header_Get (http.ReqHeader r) "Authorization" = "Bearer " +:+ token s →
  DecodeQuery (http.Body r) = inl req →
  let answer := (serve (handleAuth s (λ W _, queryArtifacts s)) r wd).1 in
  http.status answer = http.StatusOK
  ∧ fsys (serve (handleAuth s (λ W _, queryArtifacts s)) r wd).2 = fsys wd
  ∧ ∃ doc,
      http.written answer = [http.JSONText doc]
      ∧ NoDup (json.keys doc)
      ∧ (∀ h, h ∈ json.keys doc ↔ h ∈ Hashes req)
      ∧ (∀ h, h ∈ Hashes req →
              json.member h doc = Some (expected_entry (Get (storage s) h (fsys wd)))).
Proof.
  intros Hm Hauth Hd. simpl.
  rewrite (serve_admits s (λ W _, queryArtifacts s) r wd Hauth).
  unfold queryArtifacts. rewrite Hm, Hd. simpl.
  split_and!; [done|done|].
  eexists. split; [reflexivity|].
  unfold marshal_response.
  destruct (json_facts.keys_of_map
              (marshal_ArtifactInfo <$> foldl (query_step s (fsys wd)) ∅ (Hashes req)))
    as [Hnd Hkeys].
  split_and!; [done|..].
  - intros h. rewrite Hkeys, lookup_fmap, query_loop_lookup.
    destruct (decide (h ∈ Hashes req)); simpl.
    + split; [done|]. intros _. eauto.
    + rewrite lookup_empty. simpl. split; [by intros [? ?]|done].
  - intros h Hin.
    rewrite json_facts.member_of_map, lookup_fmap, query_loop_lookup.
    rewrite decide_True by done. simpl. by rewrite marshal_query_info.
Qed.

End QueryProps.

(** C6 as stated fails for an artifact of no bytes.  Its upload with
    [Content-Length: 0] is accepted, [Get] succeeds with size 0, and the
    member written for the hash has no [size]. *)
Lemma C6_counterexample :
  (http.status (serve demo.artifact demo.put_empty demo.world1).1 = http.StatusAccepted
   ∧ fsys (serve demo.artifact demo.put_empty demo.world1).2 = demo.disk_empty)
  ∧ (∃ f, Get demo.store "empty" demo.disk_empty = inl (f, 0))
  ∧ http.written (serve demo.query (demo.post_query ["empty"]) demo.world_empty).1
    = [http.JSONText (json.Object [("empty", json.Object [])])].
Proof. split_and!; [..|eexists|]; vm_compute; reflexivity. Qed.

(** The scenario of the specification with an empty artifact added. *)
Lemma query_run :
  http.written
    (serve demo.query (demo.post_query ["zzz999"; "abc123"; "empty"])
           demo.world_empty).1
  = [http.JSONText
       (json.Object
          [("abc123", json.Object [("size", json.Int 5)]);
           ("empty", json.Object []);
           ("zzz999",
            json.Object
              [("error",
                json.Object [("message", json.Str "Artifact not found")])])])].
Proof. vm_compute. reflexivity. Qed.

Lemma C6_witness :
  @DecodeQuery plain_json.decoders (http.Body (demo.post_query ["zzz999"; "abc123"; "empty"]))
  = inl {| Hashes := ["zzz999"; "abc123"; "empty"] |}
  ∧ http.status
      (serve demo.query (demo.post_query ["zzz999"; "abc123"; "empty"])
             demo.world_empty).1
    = http.StatusOK.
Proof.
  assert (Hd : @DecodeQuery plain_json.decoders
                 (http.Body (demo.post_query ["zzz999"; "abc123"; "empty"]))
               = inl {| Hashes := ["zzz999"; "abc123"; "empty"] |})
    by (vm_compute; reflexivity).
  split; [exact Hd|].
  exact (proj1 (@C6_query_entries plain_json.decoders demo.server
                  (demo.post_query ["zzz999"; "abc123"; "empty"]) _ demo.world_empty
                  eq_refl eq_refl Hd)).
Defined.

(** ** The cache directory *)

Module root_facts.
Import os os_facts.

Lemma is_dir_put_fresh (loc : location) (v : option node) (t : node) (q : location) :
  lookup loc t = None → is_dir t q = true → is_dir (put loc v t) q = true.
Proof.
  revert t q. induction loc as [|c rest IH]; intros t q Hnone Hq; [done|].
  destruct t as [c0|m]; [done|].
  destruct q as [|c' q']; [by destruct rest|].
  unfold is_dir in *. simpl in Hnone, Hq.
  destruct (decide (c' = c)) as [->|Hne].
  - destruct (m !! c) as [child|] eqn:Hm; simpl in Hnone, Hq; [|done].
    destruct rest as [|c2 rest']; [done|].
    rewrite put_cons by done. simpl. rewrite lookup_alter_eq, Hm. simpl.
    by apply IH.
  - destruct rest as [|c2 rest']; simpl.
    + by rewrite lookup_partial_alter_ne.
    + by rewrite lookup_alter_ne.
Qed.

Lemma lookup_child (t : node) (pos : location) (e : string) (m : gmap string node) :
  lookup pos t = Some (Dir m) → lookup (pos ++ [e]) t = m !! e.
Proof.
  intros Hpos. rewrite lookup_app, Hpos. simpl. by destruct (m !! e).
Qed.

(** After [mkdir_walk] the path can be walked, and every directory that was
    there still is. *)
Lemma walk_cons (t : node) (pos : location) (e : string) (rest : list string) :
  is_dir t pos = true → long_name e = false →
  walk t pos (e :: rest) = walk t (step pos e) rest.
Proof.
  unfold is_dir. simpl. intros Hd ->. by destruct (lookup pos t) as [[c|m]|].
Qed.


Lemma mkdir_walk_walk (t0 t : node) (pos : location) (elems : list string) (loc : location) :
  mkdir_walk t0 pos elems = (t, inr loc) →
  walk t pos elems = inr loc ∧ ∀ q, is_dir t0 q = true → is_dir t q = true.
Proof.
  revert t0 pos. induction elems as [|e rest IH]; intros t0 pos Hmk; simpl in Hmk.
  - by injection Hmk as <- <-.
  - destruct (lookup pos t0) as [[c|m]|] eqn:Hpos; [done| |done].
    assert (Hd : is_dir t0 pos = true) by (unfold is_dir; by rewrite Hpos).
    destruct (long_name e) eqn:Hlong; [done|].
    assert (Hgen : ∀ t1,
               (∀ q, is_dir t0 q = true → is_dir t1 q = true) →
               mkdir_walk t1 (step pos e) rest = (t, inr loc) →
               walk t pos (e :: rest) = inr loc
               ∧ ∀ q, is_dir t0 q = true → is_dir t q = true).
    { intros t1 Hmono Hw. destruct (IH _ _ Hw) as [Hwalk Hmono'].
      split; [|by auto]. rewrite walk_cons by auto. done. }
    unfold step in Hgen.
    destruct (bool_decide (e = "") || bool_decide (e = ".")); [by apply (Hgen t0)|].
    destruct (bool_decide (e = "..")); [by apply (Hgen t0)|].
    destruct (m !! e) as [child|] eqn:Hchild; [by apply (Hgen t0)|].
    apply (Hgen (put (pos ++ [e]) (Some (Dir ∅)) t0)); [|done].
    intros q. apply is_dir_put_fresh. by rewrite (lookup_child _ _ _ _ Hpos).
Qed.

Lemma walk_app (t : node) (pos : location) (a b : list string) :
  walk t pos (a ++ b)
  = match walk t pos a with
    | inr p => walk t p b
    | inl e => inl e
    end.
Proof.
  revert pos. induction a as [|e a IH]; intros pos; simpl; [done|].
  destruct (lookup pos t) as [[c|m]|]; [done| |done].
  destruct (long_name e); [done|]. apply IH.
Qed.

(** One name at the end of a walk. *)
Lemma walk_snoc_name (t : node) (pos : location) (a : list string) (e : string)
  (p : location) :
  e ≠ "" → e ≠ "." → e ≠ ".." →
  walk t pos (a ++ [e]) = inr p →
  ∃ p', walk t pos a = inr p' ∧ p = p' ++ [e].
Proof.
  intros H1 H2 H3. rewrite walk_app.
  destruct (walk t pos a) as [err|p']; [done|]. simpl.
  destruct (lookup p' t) as [[c|m]|]; [done| |done].
  destruct (long_name e); [done|].
  unfold step. rewrite !bool_decide_eq_false_2 by done. simpl.
  intros [= <-]. eauto.
Qed.

(** [Clean] keeps the place: where the elements lead on the tree, the
    cleaned elements lead too. *)
Lemma clean_walk (t : node) (is_rooted : bool) (start : location)
  (out rest : list string) (p loc : location) :
  Forall (λ e, e ≠ "" ∧ e ≠ ".") out →
  (is_rooted = true → start = []) →
  walk t start (rev out) = inr p →
  walk t p rest = inr loc →
  walk t start (filepath.clean_elems is_rooted out rest) = inr loc.
Proof.
  intros Hout Hroot. revert out p Hout.
  induction rest as [|e rest IH]; intros out p Hout Hp Hrest; simpl in *.
  - by simplify_eq.
  - destruct (lookup p t) as [[c|m]|] eqn:Hlp; [done| |done].
    destruct (long_name e) eqn:Hlong; [done|].
    unfold step in Hrest.
    destruct (bool_decide (e = "") || bool_decide (e = ".")) eqn:Hskip.
    { by apply (IH out p). }
    apply orb_false_elim in Hskip as [He1 He2].
    apply bool_decide_eq_false in He1, He2.
    case_bool_decide as Hup.
    + destruct out as [|top out'].
      * simpl in Hp. injection Hp as <-.
        destruct is_rooted.
        -- rewrite (Hroot eq_refl) in *. by apply (IH [] []).
        -- apply (IH [".."] (removelast start)); [by repeat constructor| |done].
           subst e. simpl. by rewrite Hlp.
      * apply Forall_cons in Hout as [[Ht1 Ht2] Hout'].
        case_bool_decide as Htop.
        -- apply (IH (".." :: top :: out') (removelast p)); [|  |done].
           ++ repeat constructor; done.
           ++ change (rev (".." :: top :: out')) with (rev (top :: out') ++ [".."]).
              rewrite walk_app, Hp. subst e. simpl. by rewrite Hlp.
        -- simpl in Hp.
           destruct (walk_snoc_name _ _ _ _ _ Ht1 Ht2 Htop Hp) as (p' & Hp' & ->).
           rewrite removelast_last in Hrest.
           by apply (IH out' p').
    + apply (IH (e :: out) (p ++ [e])); [by constructor| |done].
      simpl. rewrite walk_app, Hp. simpl. rewrite Hlp, Hlong. unfold step.
      by rewrite !bool_decide_eq_false_2 by done.
Qed.

End root_facts.

(** ** Paths as strings *)

Module path_facts.
Import strings strings_facts filepath.

Lemma Split_cons (sep c : ascii) (s : string) :
  Split sep (String c s)
  = if Ascii.eqb c sep then "" :: Split sep s
    else match Split sep s with
         | x :: xs => String c x :: xs
         | [] => [String c ""]
         end.
Proof. reflexivity. Qed.

Lemma Split_snoc_sep (s : string) : Split "/" (s +:+ "/") = Split "/" s ++ [""].
Proof.
  induction s as [|c s IH]; [done|].
  rewrite append_cons, !Split_cons, IH.
  destruct (Ascii.eqb c "/"); [done|].
  pose proof (os_facts.Split_nonempty "/" s).
  by destruct (Split "/" s).
Qed.

Lemma Contains_cons (d : ascii) (s : string) (c : ascii) :
  Contains (String d s) c = Ascii.eqb c d || Contains s c.
Proof. reflexivity. Qed.

Lemma Contains_cons_false (d : ascii) (s : string) (c : ascii) :
  Contains (String d s) c = false → Ascii.eqb d c = false ∧ Contains s c = false.
Proof.
  rewrite Contains_cons. intros [Hc Hs]%orb_false_elim. by rewrite Ascii.eqb_sym.
Qed.

Lemma Contains_app (a b : string) (c : ascii) :
  Contains (a +:+ b) c = Contains a c || Contains b c.
Proof.
  induction a as [|d a IH]; [done|].
  rewrite append_cons, !Contains_cons, IH. by rewrite orb_assoc.
Qed.

(** The elements of a split are free of the separator, and of every
    character the string is free of. *)
Lemma Split_free (sep c : ascii) (s : string) :
  c = sep ∨ Contains s c = false →
  Forall (λ e, Contains e c = false) (Split sep s).
Proof.
  induction s as [|d s IH]; intros Hc; [by repeat constructor|].
  rewrite Split_cons.
  assert (Hs : c = sep ∨ Contains s c = false).
  { destruct Hc as [->|Hc]; [by left|].
    apply Contains_cons_false in Hc as [_ Hc]. by right. }
  specialize (IH Hs).
  destruct (Ascii.eqb d sep) eqn:Hd; [by constructor|].
  pose proof (os_facts.Split_nonempty sep s).
  destruct (Split sep s) as [|x xs]; [done|].
  apply Forall_cons in IH as [Hx Hxs]. constructor; [|done].
  rewrite Contains_cons, Hx, orb_false_r.
  destruct Hc as [->|Hc].
  - by rewrite Ascii.eqb_sym.
  - apply Contains_cons_false in Hc as [Hc _]. by rewrite Ascii.eqb_sym.
Qed.

Lemma Split_free_id (x : string) : Contains x "/" = false → Split "/" x = [x].
Proof.
  induction x as [|c x IH]; [done|].
  intros [Hc Hx]%Contains_cons_false. by rewrite Split_cons, Hc, (IH Hx).
Qed.

Lemma Split_free_app (x r : string) :
  Contains x "/" = false → Split "/" (x +:+ "/" +:+ r) = x :: Split "/" r.
Proof.
  induction x as [|c x IH]; [done|].
  intros [Hc Hx]%Contains_cons_false.
  by rewrite append_cons, Split_cons, Hc, (IH Hx).
Qed.

Lemma Split_concat (l : list string) :
  l ≠ [] → Forall (λ e, Contains e "/" = false) l →
  Split "/" (String.concat "/" l) = l.
Proof.
  induction l as [|x l IH]; [done|]. intros _ [Hx Hl]%Forall_cons.
  destruct l as [|y l]; simpl.
  - by apply Split_free_id.
  - change (x ++ String "/" (String.concat "/" (y :: l)))%string
      with (x +:+ "/" +:+ String.concat "/" (y :: l)).
    rewrite (Split_free_app _ _ Hx). f_equal. by apply IH.
Qed.

Lemma Contains_concat (c : ascii) (l : list string) :
  Contains "/" c = false → Forall (λ e, Contains e c = false) l →
  Contains (String.concat "/" l) c = false.
Proof.
  intros Hsep. induction l as [|x l IH]; [done|]. intros [Hx Hl]%Forall_cons.
  destruct l as [|y l]; [done|].
  change (String.concat "/" (x :: y :: l))
    with (x +:+ "/" +:+ String.concat "/" (y :: l)).
  by rewrite !Contains_app, Hx, Hsep, (IH Hl).
Qed.

Lemma rooted_cons (c : ascii) (s : string) : rooted (String c s) = Ascii.eqb c "/".
Proof. by destruct c as [[] [] [] [] [] [] [] []]. Qed.

Lemma rooted_app (a b : string) : a ≠ "" → rooted (a +:+ b) = rooted a.
Proof. destruct a as [|c a]; [done|]. intros _. by rewrite append_cons, !rooted_cons. Qed.

Lemma rooted_concat (l : list string) :
  Forall (λ e, e ≠ "" ∧ Contains e "/" = false) l →
  rooted (String.concat "/" l) = false.
Proof.
  destruct l as [|x l]; [done|]. intros [[Hne Hx] _]%Forall_cons.
  assert (Hr : rooted x = false).
  { destruct x as [|c x]; [done|]. rewrite rooted_cons.
    by apply Contains_cons_false in Hx as [Hc _]. }
  destruct l as [|y l]; [done|].
  change (String.concat "/" (x :: y :: l))
    with (x +:+ "/" +:+ String.concat "/" (y :: l)).
  by rewrite rooted_app.
Qed.

(** What [clean_elems] returns was in the buffer, or is a proper element of
    the input, or is [..]. *)
Lemma clean_elems_Forall (Q : string → Prop) (is_rooted : bool) (out rest : list string) :
  Q ".." → Forall Q out → Forall (λ e, e ≠ "" → e ≠ "." → Q e) rest →
  Forall Q (clean_elems is_rooted out rest).
Proof.
  intros Hup. revert out. induction rest as [|e rest IH]; intros out Hout Hrest; simpl.
  - by apply Forall_rev.
  - apply Forall_cons in Hrest as [He Hrest].
    destruct (bool_decide (e = "") || bool_decide (e = ".")) eqn:Hskip; [by apply IH|].
    apply orb_false_elim in Hskip as [He1 He2].
    apply bool_decide_eq_false in He1, He2.
    case_bool_decide.
    + destruct out as [|top out'].
      * destruct is_rooted; apply IH; by repeat constructor.
      * apply Forall_cons in Hout as [Htop Hout'].
        case_bool_decide; apply IH; by repeat constructor.
    + apply IH; [|done]. constructor; auto.
Qed.

(** *** Lengths *)

Lemma span_app (a b : list string) : span (a ++ b) = (span a + span b)%nat.
Proof. induction a as [|e a IH]; simpl; [done|]. rewrite IH. lia. Qed.

Lemma span_rev (l : list string) : span (rev l) = span l.
Proof.
  induction l as [|e l IH]; simpl; [done|]. rewrite span_app, IH. simpl. lia.
Qed.

Lemma span_Split (s : string) : span (Split "/" s) = (String.length s + 1)%nat.
Proof.
  induction s as [|c s IH]; [done|].
  rewrite Split_cons. destruct (Ascii.eqb c "/").
  - simpl. rewrite IH. lia.
  - pose proof (os_facts.Split_nonempty "/" s).
    destruct (Split "/" s) as [|x xs]; [done|]. simpl in *. lia.
Qed.

Lemma length_concat (l : list string) :
  l ≠ [] → (String.length (String.concat "/" l) + 1)%nat = span l.
Proof.
  induction l as [|x l IH]; [done|]. intros _.
  destruct l as [|y l]; [simpl; lia|].
  change (String.concat "/" (x :: y :: l))
    with (x +:+ "/" +:+ String.concat "/" (y :: l)).
  rewrite !length_append. specialize (IH ltac:(done)).
  change (span (x :: y :: l)) with (String.length x + 1 + span (y :: l))%nat.
  change (String.length "/") with 1%nat. lia.
Qed.

Lemma span_clean_elems (is_rooted : bool) (out rest : list string) :
  (span (clean_elems is_rooted out rest) ≤ span out + span rest)%nat.
Proof.
  revert out. induction rest as [|e rest IH]; intros out; simpl.
  - rewrite span_rev. lia.
  - destruct (bool_decide (e = "") || bool_decide (e = ".")).
    { specialize (IH out). lia. }
    case_bool_decide as Hup.
    + subst e. destruct out as [|top out'].
      * destruct is_rooted; [specialize (IH [])|specialize (IH [".."])];
          simpl in *; lia.
      * case_bool_decide; [specialize (IH (".." :: top :: out'))|specialize (IH out')];
          simpl in *; lia.
    + specialize (IH (e :: out)). simpl in *. lia.
Qed.

Lemma clean_elems_snoc_empty (is_rooted : bool) (out rest : list string) :
  clean_elems is_rooted out (rest ++ [""]) = clean_elems is_rooted out rest.
Proof.
  revert out. induction rest as [|e rest IH]; intros out; simpl; [done|].
  destruct (bool_decide (e = "") || bool_decide (e = ".")); [apply IH|].
  case_bool_decide.
  - destruct out as [|top out'].
    + destruct is_rooted; apply IH.
    + case_bool_decide; apply IH.
  - apply IH.
Qed.

Lemma clean_elems_snoc_name (is_rooted : bool) (out rest : list string) (h : string) :
  h ≠ "" → h ≠ "." → h ≠ ".." →
  clean_elems is_rooted out (rest ++ [h]) = clean_elems is_rooted out rest ++ [h].
Proof.
  intros H1 H2 H3. revert out. induction rest as [|e rest IH]; intros out; simpl.
  - by rewrite !bool_decide_eq_false_2 by done.
  - destruct (bool_decide (e = "") || bool_decide (e = ".")); [apply IH|].
    case_bool_decide.
    + destruct out as [|top out'].
      * destruct is_rooted; apply IH.
      * case_bool_decide; apply IH.
    + apply IH.
Qed.

(** [Clean] makes a path no longer. *)
Lemma length_Clean (path : string) :
  path ≠ "" → (String.length (Clean path) ≤ String.length path)%nat.
Proof.
  intros Hne. unfold Clean. rewrite bool_decide_eq_false_2 by done.
  destruct path as [|c path']; [done|].
  rewrite rooted_cons. destruct (Ascii.eqb c "/") eqn:Hc.
  - apply Ascii.eqb_eq in Hc as ->.
    rewrite Split_cons. cbn [Ascii.eqb Bool.eqb andb].
    change (clean_elems true [] ("" :: Split "/" path'))
      with (clean_elems true [] (Split "/" path')).
    pose proof (span_clean_elems true [] (Split "/" path')) as Hs.
    rewrite span_Split in Hs. change (span []) with 0%nat in Hs.
    change ("/" +:+ ?x) with (String "/" x).
    destruct (clean_elems true [] (Split "/" path')) as [|x l] eqn:Hce.
    + simpl. lia.
    + pose proof (length_concat (x :: l) ltac:(done)) as Hl.
      cbn [String.length]. lia.
  - pose proof (span_clean_elems false [] (Split "/" (String c path'))) as Hs.
    rewrite span_Split in Hs. change (span []) with 0%nat in Hs.
    case_bool_decide as Hnil.
    + simpl. lia.
    + pose proof (length_concat _ Hnil) as Hl. cbn [String.length] in *. lia.
Qed.

Lemma Clean_snoc_sep (base : string) :
  base ≠ "" → Clean (base +:+ "/") = Clean base.
Proof.
  intros Hne. unfold Clean.
  rewrite (bool_decide_eq_false_2 (base +:+ "/" = "")) by (by destruct base).
  rewrite (bool_decide_eq_false_2 (base = "")) by done.
  by rewrite rooted_app, Split_snoc_sep, clean_elems_snoc_empty.
Qed.

End path_facts.

Module cache_dir.
Import os os_facts root_facts path_facts strings strings_facts.

Lemma Join_empty (base : string) :
  base ≠ "" → filepath.Join base "" = filepath.Clean (base +:+ "/").
Proof. intros Hb. unfold filepath.Join. by rewrite bool_decide_eq_false_2. Qed.

Lemma append_not_empty (a b : string) : a ≠ "" → a +:+ b ≠ "".
Proof. by destruct a. Qed.

(** The path [Clean] makes of elements that lead to a directory leads
    there. *)
Lemma namei_cleaned (t : node) (dir : location) (is_rooted : bool) (ce : list string)
  (loc : location) (m : gmap string node) :
  Forall (λ e, (e ≠ "" ∧ Contains e "/" = false) ∧ Contains e NUL = false) ce →
  walk t (if is_rooted then [] else dir) ce = inr loc →
  lookup loc t = Some (Dir m) →
  long_path (if is_rooted then "/" +:+ String.concat "/" ce
             else if bool_decide (ce = []) then "."
             else String.concat "/" ce) = false →
  namei (MkFS t dir)
        (if is_rooted then "/" +:+ String.concat "/" ce
         else if bool_decide (ce = []) then "."
         else String.concat "/" ce)
  = inr loc.
Proof.
  intros Hce Hwalk Hloc Hshort.
  apply Forall_and in Hce as [Hce Hnul]. pose proof Hce as Hce'.
  apply Forall_and in Hce' as [_ Hslash].
  assert (Hnonul : Contains (String.concat "/" ce) NUL = false)
    by (by apply Contains_concat).
  assert (Hsplit : ce ≠ [] → Split "/" (String.concat "/" ce) = ce)
    by (intros; by apply Split_concat).
  unfold namei. cbn [root cwd]. rewrite Hshort.
  destruct is_rooted.
  - rewrite bool_decide_eq_false_2 by done.
    rewrite Contains_app, Hnonul. cbn [orb Contains Ascii.eqb NUL].
    change (String.eqb "" "") with true.
    replace (Contains "/" NUL) with false by reflexivity. cbn [orb].
    change ("/" +:+ String.concat "/" ce) with (String "/" (String.concat "/" ce)).
    rewrite rooted_cons, Split_cons. cbn [Ascii.eqb Bool.eqb andb].
    destruct ce as [|x ce'].
    + simpl in Hwalk. injection Hwalk as <-. simpl in Hloc. simplify_eq. done.
    + rewrite Hsplit by done.
      assert (Hd : is_dir t [] = true).
      { simpl in Hwalk. unfold is_dir. simpl. by destruct t. }
      by rewrite walk_cons by done.
  - destruct (decide (ce = [])) as [->|Hnil].
    + simpl in Hwalk. injection Hwalk as <-.
      simpl. by rewrite Hloc.
    + rewrite (bool_decide_eq_false_2 (ce = [])) by done.
      rewrite bool_decide_eq_false_2.
      2:{ intros Hempty. specialize (Hsplit Hnil). rewrite Hempty in Hsplit.
          simpl in Hsplit. subst ce. by apply Forall_cons in Hce as [[? _] _]. }
      by rewrite Hnonul, rooted_concat, Hsplit.
Qed.

Lemma short_Clean (path : string) :
  path ≠ "" → long_path path = false → long_path (filepath.Clean path) = false.
Proof.
  intros Hne. unfold long_path. rewrite !Nat.leb_gt.
  pose proof (length_Clean path Hne). lia.
Qed.

(** When [MkdirAll] succeeded, the path the store uses for the empty hash
    is a directory. *)
Lemma MkdirAll_root (base : string) (fs fs' : FS) :
  MkdirAll base fs = (fs', None) →
  ∃ loc m, namei fs' (filepath.Join base "") = inr loc
           ∧ lookup loc (root fs') = Some (Dir m).
Proof.
  unfold MkdirAll.
  case_bool_decide as Hbase; [done|].
  destruct (Contains base NUL) eqn:Hnul; [done|].
  destruct (long_path base) eqn:Hshort.
  { destruct (mkdir_walk _ _ _) as [t [e|loc]]; [done|].
    by destruct (lookup loc t) as [[c|m]|]. }
  destruct (mkdir_walk _ _ _) as [t [e|loc]] eqn:Hmk; [done|].
  destruct (lookup loc t) as [[c|m]|] eqn:Hloc; [done| |done].
  intros [= <-]. exists loc, m. split; [|done].
  apply mkdir_walk_walk in Hmk as [Hwalk _].
  rewrite Join_empty by done.
  pose proof (short_Clean base Hbase Hshort) as Hclean.
  rewrite <- (Clean_snoc_sep base Hbase) in Hclean.
  unfold filepath.Clean in *.
  rewrite bool_decide_eq_false_2 in * by (by apply append_not_empty).
  rewrite rooted_app in * by done.
  apply (namei_cleaned t (cwd fs) (filepath.rooted base) _ loc m); [| |done|done].
  - apply clean_elems_Forall; [by repeat split|done|].
    rewrite Split_snoc_sep.
    pose proof (Split_free "/" "/" base (or_introl eq_refl)) as Hslash.
    pose proof (Split_free "/" NUL base (or_intror Hnul)) as Hnonul.
    apply Forall_app. split; [|by repeat constructor].
    eapply Forall_impl; [apply Forall_and; split; [exact Hslash|exact Hnonul]|].
    intros e [? ?] ? ?. by repeat split.
  - rewrite Split_snoc_sep.
    apply (clean_walk t _ _ [] _ (if filepath.rooted base then [] else cwd fs));
      [done|by intros ->|done|].
    rewrite walk_app, Hwalk. simpl. by rewrite Hloc.
Qed.

End cache_dir.

Section RootProps.
Import os os_facts store_facts strings_facts.

(** The path of the empty hash keeps leading to a directory, whatever is
    stored. *)
Lemma root_stays (st : FileSystemStorage) (cs : list store_call) (fs : FS)
  (loc : location) :
  namei fs (filepath.Join (basePath st) "") = inr loc →
  is_dir (root fs) loc = true →
  namei (run_calls st fs cs) (filepath.Join (basePath st) "") = inr loc
  ∧ is_dir (root (run_calls st fs cs)) loc = true.
Proof.
  unfold run_calls. revert fs. induction cs as [|c cs IH]; intros fs Hn Hd; [done|].
  simpl. apply IH.
  - destruct c as [hash body| |]; simpl; [|done..].
    destruct (Store_cases st hash body fs)
      as [[err ->]|(parent & e & _ & _ & Hnd & ->)]; [done|].
    destruct (fault body); simpl; by apply set_entry_namei.
  - destruct c as [hash body| |]; simpl; [|done..].
    destruct (Store_cases st hash body fs)
      as [[err ->]|(parent & e & _ & _ & Hnd & ->)]; [done|].
    destruct (fault body); simpl; by rewrite is_dir_put.
Qed.

(** C10.  After [NewFileSystemStorage] succeeded, and whatever calls of the
    store follow, [Exists] of the empty hash is true: its path is the cache
    directory.  An admitted HEAD request for [/v8/artifacts/], whose hash is
    empty, is answered with 200. *)
Theorem C10_empty_hash_exists (base : string) (fs fs' : FS) (st : FileSystemStorage)
  (cs : list store_call) :
  NewFileSystemStorage base fs = (fs', inl st) →
  Exists st "" (run_calls st fs' cs) = (true, None)
  ∧ ∀ (s : Server) (r : http.Request) (wd : World),
      storage s = st → fsys wd = run_calls st fs' cs →
      http.Method r = http.MethodHead →
      http.URL_Path r = "/v8/artifacts/" →
      http.Header_Get (http.ReqHeader r) "Authorization" = "Bearer " +:+ token s →
      http.status (serve (handleAuth s (λ W _, handleArtifact s)) r wd).1
      = http.StatusOK.
Proof.
  unfold NewFileSystemStorage.
  destruct (MkdirAll base fs) as [fs1 [err|]] eqn:Hmk; [done|].
  intros [= <- <-].
  destruct (cache_dir.MkdirAll_root _ _ _ Hmk) as (loc & m & Hn & Hl).
  destruct (root_stays {| basePath := base |} cs fs1 loc Hn) as [Hn' Hd'].
  { unfold is_dir. by rewrite Hl. }
  assert (Hex : Exists {| basePath := base |} ""
                  (run_calls {| basePath := base |} fs1 cs) = (true, None)).
  { rewrite (Exists_entry _ _ _ _ Hn'). unfold is_dir in Hd'.
    destruct (lookup loc (root (run_calls _ fs1 cs))) as [[c|m']|];
      [done| |done].
    rewrite bool_decide_eq_true_2; [done|eauto]. }
  split; [done|].
  intros s r wd Hst Hfs Hm Hp Hauth.
  rewrite (serve_admits s (λ W _, handleArtifact s) r wd Hauth).
  unfold handleArtifact, checkArtifact. rewrite Hm, Hp. simpl.
  change (strings.TrimPrefix "/v8/artifacts/" "/v8/artifacts/") with "".
  rewrite Hst, Hfs, Hex. done.
Qed.

End RootProps.

Lemma C10_witness :
  NewFileSystemStorage "./turbo-cache" demo.blank = (demo.disk0, inl demo.store)
  ∧ Exists demo.store "" demo.disk1 = (true, None)
  ∧ http.status (serve demo.artifact demo.head_root demo.world1).1 = http.StatusOK.
Proof.
  assert (H : NewFileSystemStorage "./turbo-cache" demo.blank
              = (demo.disk0, inl demo.store)) by (vm_compute; reflexivity).
  split; [exact H|].
  destruct (C10_empty_hash_exists "./turbo-cache" demo.blank demo.disk0 demo.store
              [CallStore "abc123" (demo.whole "hello")] H) as [Hexists Hhead].
  split; [exact Hexists|].
  apply (Hhead demo.server demo.head_root demo.world1); reflexivity.
Defined.

(** * Further properties *)

(** ** The two probes of the store *)

Section ProbeProps.
Import os strings_facts.
Variable st : FileSystemStorage.

Lemma probe_cases (hash : string) (fs : FS) :
  match Exists st hash fs with
  | (true, None) => ∃ f n, Get st hash fs = inl (f, n)
  | (false, None) => Get st hash fs = inr (ErrorString "artifact not found")
  | (false, Some err) =>
      ∃ path e, err = PathError "stat" path e ∧ e ≠ ENOENT
                ∧ Get st hash fs
                  = inr (WrapError "failed to open file" (PathError "open" path e))
  | (true, Some _) => False
  end.
Proof.
  unfold Exists, Get, Stat, Open, file_Stat.
  destruct (namei fs _) as [e|loc] eqn:Hn.
  - destruct e; simpl; try done; eexists _, _; split_and!; done.
  - destruct (lookup loc (root fs)) as [n|] eqn:Hl; simpl; [rewrite Hl|]; eauto.
Qed.

(** X1.  [Exists] and [Get] agree on every hash and disk: [Exists] says
    true exactly when [Get] opens the entry; it says false without error
    exactly when [Get] reports "artifact not found"; and it fails exactly
    when [Get] fails with "failed to open file", on the same cause. *)
Theorem X1_probes_agree (hash : string) (fs : FS) :
  (Exists st hash fs = (true, None) ↔ ∃ f n, Get st hash fs = inl (f, n))
  ∧ (Exists st hash fs = (false, None)
     ↔ Get st hash fs = inr (ErrorString "artifact not found"))
  ∧ (∀ path e,
       Exists st hash fs = (false, Some (PathError "stat" path e))
       ↔ Get st hash fs
         = inr (WrapError "failed to open file" (PathError "open" path e))).
Proof.
  pose proof (probe_cases hash fs) as Hc.
  destruct (Exists st hash fs) as [[|] [err|]].
  - done.
  - destruct Hc as (f & n & ->).
    split_and!; [| |intros path' e']; split; intros Hx; try done; eauto.
  - destruct Hc as (path & e & -> & Hne & ->).
    split_and!; [| |intros path' e']; split; intros Hx; try done;
      [by destruct Hx as (? & ? & ?)|by injection Hx as -> ->..].
  - rewrite Hc.
    split_and!; [| |intros path' e']; split; intros Hx; try done.
    by destruct Hx as (? & ? & ?).
Qed.

End ProbeProps.

(** ** The handlers behind the gate *)

Section HandlerProps.
Import strings_facts.
Context `{Decoders}.
Variable s : Server.

Lemma download_status (r : http.Request) (hash : string) (wd : World) :
  http.Method r = http.MethodGet →
  http.URL_Path r = "/v8/artifacts/" +:+ hash →
  http.Header_Get (http.ReqHeader r) "Authorization" = "Bearer " +:+ token s →
  http.status (serve (handleAuth s (λ W _, handleArtifact s)) r wd).1
  = match Get (storage s) hash (fsys wd) with
    | inl _ => http.StatusOK
    | inr _ => http.StatusNotFound
    end.
Proof.
  intros Hm Hp Hauth. rewrite (serve_admits s _ r wd Hauth).
  unfold handleArtifact, downloadArtifact. rewrite Hm, Hp, TrimPrefix_app. simpl.
  destruct (Get _ _ _) as [[reader size]|err]; [|done]. simpl.
  destruct (os.file_reader _ _) as [[|b bs] [e|]]; done.
Qed.

Lemma head_status (r : http.Request) (hash : string) (wd : World) :
  http.Method r = http.MethodHead →
  http.URL_Path r = "/v8/artifacts/" +:+ hash →
  http.Header_Get (http.ReqHeader r) "Authorization" = "Bearer " +:+ token s →
  http.status (serve (handleAuth s (λ W _, handleArtifact s)) r wd).1
  = match Exists (storage s) hash (fsys wd) with
    | (true, None) => http.StatusOK
    | (false, None) => http.StatusNotFound
    | (_, Some _) => http.StatusInternalServerError
    end.
Proof.
  intros Hm Hp Hauth. rewrite (serve_admits s _ r wd Hauth).
  unfold handleArtifact, checkArtifact. rewrite Hm, Hp, TrimPrefix_app. simpl.
  destruct (Exists _ _ _) as [[|] [err|]]; done.
Qed.

(** X2.  For the same hash on the same disk, an admitted GET is answered
    with 200 exactly when an admitted HEAD is; every other GET is answered
    with 404. *)
Theorem X2_head_and_get_agree (get head : http.Request) (hash : string) (wd : World) :
  http.Method get = http.MethodGet → http.Method head = http.MethodHead →
  http.URL_Path get = "/v8/artifacts/" +:+ hash →
  http.URL_Path head = "/v8/artifacts/" +:+ hash →
  http.Header_Get (http.ReqHeader get) "Authorization" = "Bearer " +:+ token s →
  http.Header_Get (http.ReqHeader head) "Authorization" = "Bearer " +:+ token s →
  (http.status (serve (handleAuth s (λ W _, handleArtifact s)) get wd).1 = http.StatusOK
   ↔ http.status (serve (handleAuth s (λ W _, handleArtifact s)) head wd).1
     = http.StatusOK)
  ∧ (http.status (serve (handleAuth s (λ W _, handleArtifact s)) get wd).1
     ≠ http.StatusOK →
     http.status (serve (handleAuth s (λ W _, handleArtifact s)) get wd).1
     = http.StatusNotFound).
Proof.
  intros Hmg Hmh Hpg Hph Hag Hah.
  rewrite (download_status get hash wd), (head_status head hash wd) by done.
  pose proof (probe_cases (storage s) hash (fsys wd)) as Hc.
  destruct (Exists _ _ _) as [[|] [err|]].
  - done.
  - destruct Hc as (f & n & ->). done.
  - destruct Hc as (path & e & _ & _ & ->). done.
  - rewrite Hc. done.
Qed.

(** A handler that leaves the disk alone on the request [r]. *)
Lemma gate_keeps_disk (next : HandlerFunc) (r : http.Request) (wd : World) :
  (∀ wd0, fsys (next _ _ (newLoggingResponseWriter http.new_response) r wd0).2
          = fsys wd0) →
  fsys (serve (handleAuth s next) r wd).2 = fsys wd.
Proof.
  intros Hnext.
  destruct (decide (http.Header_Get (http.ReqHeader r) "Authorization"
                    = "Bearer " +:+ token s)) as [Hauth|Hauth].
  - rewrite (serve_admits s next r wd Hauth).
    specialize (Hnext (Printf (LogRequest (http.Method r) (http.URL_Path r)) wd)).
    by destruct (next _ _ _ r _) as [lrw wd'].
  - by destruct (serve_rejects s next r wd Hauth).
Qed.

(** The handlers that only read: each leaves the disk alone. *)
Lemma recordEvents_keeps_disk (r : http.Request) (wd : World) :
  fsys (recordEvents (newLoggingResponseWriter http.new_response) r wd).2 = fsys wd.
Proof.
  unfold recordEvents. case_bool_decide; simpl; [|done].
  destruct (DecodeEvents _) as [events|err]; [|done]. simpl.
  generalize wd. induction events as [|e events IH]; intros wd1; [done|].
  simpl. by rewrite IH.
Qed.

Lemma getStatus_keeps_disk (r : http.Request) (wd : World) :
  fsys (getStatus (newLoggingResponseWriter http.new_response) r wd).2 = fsys wd.
Proof. unfold getStatus. by case_bool_decide. Qed.

Lemma queryArtifacts_keeps_disk (r : http.Request) (wd : World) :
  fsys (queryArtifacts s (newLoggingResponseWriter http.new_response) r wd).2 = fsys wd.
Proof.
  unfold queryArtifacts. case_bool_decide; simpl; [|done].
  by destruct (DecodeQuery _) as [req|err].
Qed.

Lemma handleArtifact_keeps_disk (r : http.Request) (wd : World) :
  http.Method r ≠ http.MethodPut →
  fsys (handleArtifact s (newLoggingResponseWriter http.new_response) r wd).2 = fsys wd.
Proof.
  intros Hm. unfold handleArtifact. repeat case_bool_decide; try done.
  - unfold downloadArtifact.
    destruct (Get _ _ _) as [[reader size]|err]; [|done]. simpl.
    by destruct (os.file_reader _ _) as [[|b bs] [e|]].
  - unfold checkArtifact. by destruct (Exists _ _ _) as [[|] [err|]].
Qed.

(** X3.  Only a PUT on the artifact route can change the disk: on every
    registered route, a request of another method, or any request on another
    route, admitted or not, leaves the disk exactly as it was. *)
Theorem X3_only_put_writes (pattern : string) (h : HandlerFunc) (r : http.Request)
  (wd : World) :
  (pattern, h) ∈ routes s →
  pattern ≠ "/v8/artifacts/" ∨ http.Method r ≠ http.MethodPut →
  fsys (serve h r wd).2 = fsys wd.
Proof.
  unfold routes. rewrite !elem_of_cons, elem_of_nil.
  intros [[= -> ->]|[[= -> ->]|[[= -> ->]|[[= -> ->]|[]]]]] Hwhy;
    apply gate_keeps_disk; intros wd0.
  - apply recordEvents_keeps_disk.
  - apply getStatus_keeps_disk.
  - destruct Hwhy as [?|Hm]; [done|]. by apply handleArtifact_keeps_disk.
  - apply queryArtifacts_keeps_disk.
Qed.

(** What a request on a route can do to the disk: nothing, or what one
    [Store] of its body does. *)
Lemma route_disk (pattern : string) (h : HandlerFunc) (r : http.Request) (wd : World) :
  (pattern, h) ∈ routes s →
  fsys (serve h r wd).2 = fsys wd
  ∨ ∃ hash, fsys (serve h r wd).2
            = (Store (storage s) hash (http.Body r) (fsys wd)).1.
Proof.
  unfold routes. rewrite !elem_of_cons, elem_of_nil.
  intros [[= -> ->]|[[= -> ->]|[[= -> ->]|[[= -> ->]|[]]]]].
  - left. apply gate_keeps_disk. intros wd0. apply recordEvents_keeps_disk.
  - left. apply gate_keeps_disk. intros wd0. apply getStatus_keeps_disk.
  - destruct (decide (http.Method r = http.MethodPut)) as [Hm|Hm].
    2:{ left. apply gate_keeps_disk. intros wd0. by apply handleArtifact_keeps_disk. }
    destruct (decide (http.Header_Get (http.ReqHeader r) "Authorization"
                      = "Bearer " +:+ token s)) as [Hauth|Hauth].
    2:{ left. by destruct (serve_rejects s (λ W _, handleArtifact s) r wd Hauth). }
    rewrite (serve_admits s _ r wd Hauth). unfold handleArtifact. rewrite Hm. simpl.
    unfold uploadArtifact. case_bool_decide; [by left|]. simpl. right.
    exists (strings.TrimPrefix (http.URL_Path r) "/v8/artifacts/").
    by destruct (Store _ _ _ _) as [fs' [err|]].
  - left. apply gate_keeps_disk. intros wd0. apply queryArtifacts_keeps_disk.
Qed.

(** X4.  An admitted request whose method the route does not serve is
    answered with 405: anything but POST on the events and the query route,
    anything but GET on the status route, anything but GET, PUT and HEAD on
    the artifact route. *)
Theorem X4_method_not_allowed (r : http.Request) (wd : World) :
  http.Header_Get (http.ReqHeader r) "Authorization" = "Bearer " +:+ token s →
  (http.Method r ≠ http.MethodPost →
   http.status (serve (handleAuth s (λ W _, recordEvents)) r wd).1
   = http.StatusMethodNotAllowed
   ∧ http.status (serve (handleAuth s (λ W _, queryArtifacts s)) r wd).1
     = http.StatusMethodNotAllowed)
  ∧ (http.Method r ≠ http.MethodGet →
     http.status (serve (handleAuth s (λ W _, getStatus)) r wd).1
     = http.StatusMethodNotAllowed)
  ∧ (http.Method r ≠ http.MethodGet → http.Method r ≠ http.MethodPut →
     http.Method r ≠ http.MethodHead →
     http.status (serve (handleAuth s (λ W _, handleArtifact s)) r wd).1
     = http.StatusMethodNotAllowed).
Proof.
  intros Hauth. split_and!.
  - intros Hm. split.
    + rewrite (serve_admits s _ r wd Hauth). unfold recordEvents.
      by rewrite bool_decide_eq_false_2.
    + rewrite (serve_admits s _ r wd Hauth). unfold queryArtifacts.
      by rewrite bool_decide_eq_false_2.
  - intros Hm. rewrite (serve_admits s _ r wd Hauth). unfold getStatus.
    by rewrite bool_decide_eq_false_2.
  - intros Hg Hp Hh. rewrite (serve_admits s _ r wd Hauth). unfold handleArtifact.
    by rewrite !bool_decide_eq_false_2.
Qed.

Lemma events_logged (events : list ArtifactEvent) (wd : World) :
  foldl (λ wd event,
           Printf (LogCacheEvent (Hash event) (Source event)
                                 (Event event) (Duration event)) wd) wd events
  = {| fsys := fsys wd; logged := logged wd ++ (event_line <$> events) |}.
Proof.
  revert wd. induction events as [|e events IH]; intros wd; simpl.
  - rewrite app_nil_r. by destruct wd.
  - rewrite IH. unfold Printf. simpl. by rewrite <- app_assoc.
Qed.

(** X5.  An admitted POST of events is answered by what the decoder makes
    of the body.  When it decodes to a list of events, the answer is 200
    with nothing written, and the log gets the request line, one line for
    each event in the order of the list, and the response line; when it
    does not decode, the answer is 400 and no event is logged.  The disk is
    not touched. *)
Theorem X5_events_are_logged (r : http.Request) (wd : World) :
  http.Method r = http.MethodPost →
  http.Header_Get (http.ReqHeader r) "Authorization" = "Bearer " +:+ token s →
  match DecodeEvents (http.Body r) with
  | inl events =>
      http.status (serve (handleAuth s (λ W _, recordEvents)) r wd).1 = http.StatusOK
      ∧ http.written (serve (handleAuth s (λ W _, recordEvents)) r wd).1 = []
      ∧ (serve (handleAuth s (λ W _, recordEvents)) r wd).2
        = {| fsys := fsys wd;
             logged := logged wd
                       ++ [LogRequest (http.Method r) (http.URL_Path r)]
                       ++ (event_line <$> events)
                       ++ [LogResponse http.StatusOK "OK"] |}
  | inr _ =>
      http.status (serve (handleAuth s (λ W _, recordEvents)) r wd).1
      = http.StatusBadRequest
      ∧ (serve (handleAuth s (λ W _, recordEvents)) r wd).2
        = {| fsys := fsys wd;
             logged := logged wd
                       ++ [LogRequest (http.Method r) (http.URL_Path r)]
                       ++ [LogResponse http.StatusBadRequest "Bad Request"] |}
  end.
Proof.
  intros Hm Hauth. rewrite (serve_admits s _ r wd Hauth).
  unfold recordEvents. rewrite Hm. simpl.
  destruct (DecodeEvents (http.Body r)) as [events|err]; simpl.
  - rewrite events_logged. unfold Printf. simpl.
    split_and!; [done|done|]. f_equal. by rewrite <- !app_assoc.
  - unfold Printf. simpl. split; [done|]. f_equal. by rewrite <- !app_assoc.
Qed.

(** X6.  On the artifact route 202 is the answer of an accepted upload and
    of nothing else: the request was a PUT with a [Content-Length] header and
    the token, [Store] returned no error, and what is written back is the
    document with the URL of the hash. *)
Theorem X6_accepted_upload (r : http.Request) (hash : string) (wd : World) :
  http.URL_Path r = "/v8/artifacts/" +:+ hash →
  http.status (serve (handleAuth s (λ W _, handleArtifact s)) r wd).1
  = http.StatusAccepted →
  http.Method r = http.MethodPut
  ∧ http.Header_Get (http.ReqHeader r) "Authorization" = "Bearer " +:+ token s
  ∧ http.Header_Get (http.ReqHeader r) "Content-Length" ≠ ""
  ∧ Store (storage s) hash (http.Body r) (fsys wd)
    = (fsys (serve (handleAuth s (λ W _, handleArtifact s)) r wd).2, None)
  ∧ http.written (serve (handleAuth s (λ W _, handleArtifact s)) r wd).1
    = [http.JSONText (upload_document hash)].
Proof.
  intros Hp.
  destruct (decide (http.Header_Get (http.ReqHeader r) "Authorization"
                    = "Bearer " +:+ token s)) as [Hauth|Hauth].
  2:{ by destruct (serve_rejects s (λ W _, handleArtifact s) r wd Hauth) as [-> _]. }
  rewrite (serve_admits s _ r wd Hauth). unfold handleArtifact.
  rewrite Hp, TrimPrefix_app.
  repeat case_bool_decide.
  - unfold downloadArtifact.
    destruct (Get _ _ _) as [[reader size]|err]; [|done]. simpl.
    destruct (os.file_reader _ _) as [[|b bs] [e|]]; done.
  - unfold uploadArtifact. case_bool_decide; [done|]. simpl.
    destruct (Store _ _ _ _) as [fs' [err|]]; done.
  - unfold checkArtifact. simpl.
    destruct (Exists _ _ _) as [[|] [err|]]; done.
  - done.
Qed.

End HandlerProps.

(** ** Directories and the cache directory *)

Module mount_facts.
Import os os_facts store_facts root_facts path_facts strings strings_facts.

Lemma run_call_dirs (st : FileSystemStorage) (fs : FS) (c : store_call) (q : location) :
  is_dir (root (run_call st fs c)) q = is_dir (root fs) q
  ∧ cwd (run_call st fs c) = cwd fs.
Proof.
  destruct c as [hash body| |]; simpl; [|done..].
  destruct (Store_cases st hash body fs)
    as [[err ->]|(parent & e & _ & _ & Hnd & ->)]; [done|].
  destruct (fault body); simpl; by rewrite is_dir_put.
Qed.

Lemma run_calls_dirs (st : FileSystemStorage) (cs : list store_call) (fs : FS)
  (q : location) :
  is_dir (root (run_calls st fs cs)) q = is_dir (root fs) q
  ∧ cwd (run_calls st fs cs) = cwd fs.
Proof.
  unfold run_calls. revert fs. induction cs as [|c cs IH]; intros fs; [done|].
  simpl. destruct (IH (run_call st fs c)) as [-> ->]. apply run_call_dirs.
Qed.

Lemma mounted_same_dirs (st : FileSystemStorage) (fs fs' : FS) (dir : location) :
  cwd fs' = cwd fs →
  (∀ q, is_dir (root fs) q = true → is_dir (root fs') q = true) →
  mounted st fs dir → mounted st fs' dir.
Proof.
  intros Hcwd Hdirs (Hne & Hnul & Hwalk & Hd).
  split_and!; [done|done| |by apply Hdirs].
  rewrite Hcwd. by apply (walk_mono (root fs)).
Qed.

Lemma mounted_run_calls (st st' : FileSystemStorage) (cs : list store_call) (fs : FS)
  (dir : location) :
  mounted st fs dir → mounted st (run_calls st' fs cs) dir.
Proof.
  apply mounted_same_dirs.
  - apply run_calls_dirs, [].
  - intros q Hq. by rewrite (proj1 (run_calls_dirs st' cs fs q)).
Qed.

Lemma NewFileSystemStorage_mounted (base : string) (fs fs' : FS)
  (st : FileSystemStorage) :
  NewFileSystemStorage base fs = (fs', inl st) → ∃ dir, mounted st fs' dir.
Proof.
  unfold NewFileSystemStorage, MkdirAll.
  case_bool_decide as Hbase; [done|].
  destruct (Contains base NUL) eqn:Hnul; [done|].
  destruct (long_path base).
  { destruct (mkdir_walk _ _ _) as [t [e|loc]]; [done|].
    by destruct (lookup loc t) as [[c|m]|]. }
  destruct (mkdir_walk _ _ _) as [t [e|loc]] eqn:Hmk; [done|].
  destruct (lookup loc t) as [[c|m]|] eqn:Hloc; [done| |done].
  intros [= <- <-]. exists loc.
  apply mkdir_walk_walk in Hmk as [Hwalk _].
  split_and!; [done|done|done|]. unfold is_dir. simpl. by rewrite Hloc.
Qed.

(** The base path of a store that was made is short enough for a path. *)
Lemma NewFileSystemStorage_short (base : string) (fs fs' : FS)
  (st : FileSystemStorage) :
  NewFileSystemStorage base fs = (fs', inl st) →
  basePath st = base ∧ long_path base = false.
Proof.
  unfold NewFileSystemStorage, MkdirAll.
  case_bool_decide as Hbase; [done|].
  destruct (Contains base NUL) eqn:Hnul; [done|].
  destruct (long_path base).
  { destruct (mkdir_walk _ _ _) as [t [e|loc]]; [done|].
    by destruct (lookup loc t) as [[c|m]|]. }
  destruct (mkdir_walk _ _ _) as [t [e|loc]] eqn:Hmk; [done|].
  destruct (lookup loc t) as [[c|m]|] eqn:Hloc; [done| |done].
  by intros [= <- <-].
Qed.

Lemma fits_short (st : FileSystemStorage) (h : string) :
  fits st h →
  long_name h = false ∧ long_path (filepath.Join (basePath st) h) = false.
Proof.
  unfold fits, long_name, long_path. rewrite Nat.ltb_ge, Nat.leb_gt. done.
Qed.

Lemma walk_start_dir (t : node) (pos : location) (elems : list string) (loc : location) :
  elems ≠ [] → walk t pos elems = inr loc → is_dir t pos = true.
Proof.
  destruct elems as [|e rest]; [done|]. intros _. simpl. unfold is_dir.
  by destruct (lookup pos t) as [[c|m]|].
Qed.

Lemma Split_app_sep (a b : string) :
  Split "/" (a +:+ "/" +:+ b) = Split "/" a ++ Split "/" b.
Proof.
  induction a as [|c a IH]; [done|].
  rewrite append_cons, !Split_cons, IH.
  destruct (Ascii.eqb c "/"); [done|].
  pose proof (Split_nonempty "/" a).
  by destruct (Split "/" a).
Qed.

(** As [cache_dir.namei_cleaned], for elements that need not lead to a
    directory. *)
Lemma namei_cleaned_any (t : node) (dir : location) (is_rooted : bool)
  (ce : list string) (loc : location) :
  Forall (λ e, (e ≠ "" ∧ Contains e "/" = false) ∧ Contains e NUL = false) ce →
  walk t (if is_rooted then [] else dir) ce = inr loc →
  is_dir t (if is_rooted then [] else dir) = true →
  long_path (if is_rooted then "/" +:+ String.concat "/" ce
             else if bool_decide (ce = []) then "."
             else String.concat "/" ce) = false →
  namei (MkFS t dir)
        (if is_rooted then "/" +:+ String.concat "/" ce
         else if bool_decide (ce = []) then "."
         else String.concat "/" ce)
  = inr loc.
Proof.
  intros Hce Hwalk Hstart Hshort.
  destruct (decide (ce = [])) as [->|Hnil].
  - simpl in Hwalk. injection Hwalk as <-.
    unfold is_dir in Hstart.
    destruct (lookup (if is_rooted then [] else dir) t) as [[c|m]|] eqn:Hl;
      [done| |done].
    by apply (cache_dir.namei_cleaned t dir is_rooted [] _ m).
  - apply Forall_and in Hce as [Hce Hnul]. pose proof Hce as Hce'.
    apply Forall_and in Hce' as [_ Hslash].
    assert (Hnonul : Contains (String.concat "/" ce) NUL = false)
      by (by apply Contains_concat).
    assert (Hsplit : Split "/" (String.concat "/" ce) = ce)
      by (by apply Split_concat).
    unfold namei. cbn [root cwd]. rewrite Hshort.
    destruct is_rooted.
    + rewrite bool_decide_eq_false_2 by done.
      rewrite Contains_app, Hnonul.
      replace (Contains "/" NUL) with false by reflexivity. cbn [orb].
      change ("/" +:+ String.concat "/" ce) with (String "/" (String.concat "/" ce)).
      rewrite rooted_cons, Split_cons. cbn [Ascii.eqb Bool.eqb andb].
      rewrite Hsplit. by rewrite walk_cons by done.
    + rewrite (bool_decide_eq_false_2 (ce = [])) by done.
      rewrite bool_decide_eq_false_2.
      2:{ intros Hempty. rewrite Hempty in Hsplit.
          simpl in Hsplit. subst ce. by apply Forall_cons in Hce as [[? _] _]. }
      by rewrite Hnonul, rooted_concat, Hsplit.
Qed.

(** The path [Clean] makes of elements, when there are some, is resolved as
    the elements are walked, unless it is too long. *)
Lemma namei_cleaned_eq (t : node) (dir : location) (is_rooted : bool)
  (ce : list string) :
  ce ≠ [] →
  Forall (λ e, (e ≠ "" ∧ Contains e "/" = false) ∧ Contains e NUL = false) ce →
  namei (MkFS t dir)
        (if is_rooted then "/" +:+ String.concat "/" ce else String.concat "/" ce)
  = if long_path (if is_rooted then "/" +:+ String.concat "/" ce
                  else String.concat "/" ce)
    then inl ENAMETOOLONG
    else walk t (if is_rooted then [] else dir) ce.
Proof.
  intros Hnil Hce.
  apply Forall_and in Hce as [Hce Hnul]. pose proof Hce as Hce'.
  apply Forall_and in Hce' as [_ Hslash].
  assert (Hnonul : Contains (String.concat "/" ce) NUL = false)
    by (by apply Contains_concat).
  assert (Hsplit : Split "/" (String.concat "/" ce) = ce)
    by (by apply Split_concat).
  unfold namei. cbn [root cwd].
  destruct is_rooted.
  - rewrite bool_decide_eq_false_2 by done.
    rewrite Contains_app, Hnonul.
    replace (Contains "/" NUL) with false by reflexivity. cbn [orb].
    destruct (long_path _); [done|].
    change ("/" +:+ String.concat "/" ce) with (String "/" (String.concat "/" ce)).
    rewrite rooted_cons, Split_cons. cbn [Ascii.eqb Bool.eqb andb].
    rewrite Hsplit. destruct ce as [|x ce']; [done|].
    simpl. by destruct t.
  - rewrite bool_decide_eq_false_2.
    2:{ intros Hempty. rewrite Hempty in Hsplit.
        simpl in Hsplit. subst ce. by apply Forall_cons in Hce as [[? _] _]. }
    rewrite Hnonul. destruct (long_path _); [done|].
    by rewrite rooted_concat, Hsplit.
Qed.

(** Where the store looks for a hash: where the elements of the hash lead
    from the cache directory. *)
Lemma Join_resolves (st : FileSystemStorage) (fs : FS) (dir : location)
  (hash : string) (loc : location) :
  mounted st fs dir →
  Contains hash NUL = false →
  long_path (filepath.Join (basePath st) hash) = false →
  walk (root fs) dir (Split "/" hash) = inr loc →
  namei fs (filepath.Join (basePath st) hash) = inr loc.
Proof.
  intros (Hne & Hnul & Hwalk & Hd) Hhash Hshort Hgo.
  destruct fs as [t wdir]. cbn [root cwd] in *.
  unfold filepath.Join in *. rewrite bool_decide_eq_false_2 in * by done.
  cbn [negb] in *. unfold filepath.Clean in *.
  rewrite bool_decide_eq_false_2 in * by (by apply cache_dir.append_not_empty).
  rewrite rooted_app in * by done. rewrite Split_app_sep in *.
  apply namei_cleaned_any; [| | |done].
  - apply clean_elems_Forall; [by repeat split|done|].
    assert (Hall : ∀ x, Contains x NUL = false →
              Forall (λ e, e ≠ "" → e ≠ "." →
                           (e ≠ "" ∧ Contains e "/" = false) ∧ Contains e NUL = false)
                     (Split "/" x)).
    { intros x Hx.
      pose proof (Split_free "/" "/" x (or_introl eq_refl)) as Hslash.
      pose proof (Split_free "/" NUL x (or_intror Hx)) as Hnonul.
      eapply Forall_impl; [apply Forall_and; split; [exact Hslash|exact Hnonul]|].
      intros e [? ?] ? ?. by repeat split. }
    apply Forall_app. split; by apply Hall.
  - apply (clean_walk t _ _ [] _ (if filepath.rooted (basePath st) then [] else wdir));
      [done|by intros ->|done|].
    by rewrite walk_app, Hwalk.
  - by apply (walk_start_dir t _ (Split "/" (basePath st)) dir
                            (Split_nonempty "/" (basePath st))).
Qed.

(** A plain name leads to the entry of that name in the cache directory,
    unless the name or the path is too long. *)
Lemma plain_namei (st : FileSystemStorage) (fs : FS) (dir : location) (h : string) :
  mounted st fs dir → plain_name h →
  namei fs (filepath.Join (basePath st) h)
  = if long_path (filepath.Join (basePath st) h) || long_name h
    then inl ENAMETOOLONG
    else inr (dir ++ [h]).
Proof.
  intros (Hne & Hnul & Hwalk & Hd) (H1 & H2 & H3 & Hslash & Hnulh).
  destruct fs as [t wdir]. cbn [root cwd] in *.
  unfold filepath.Join. rewrite bool_decide_eq_false_2 by done. cbn [negb].
  unfold filepath.Clean.
  rewrite bool_decide_eq_false_2 by (by apply cache_dir.append_not_empty).
  rewrite rooted_app by done.
  rewrite Split_app_sep, (Split_free_id h Hslash).
  rewrite clean_elems_snoc_name by done.
  set (cb := filepath.clean_elems (filepath.rooted (basePath st)) []
               (Split "/" (basePath st))).
  rewrite (bool_decide_eq_false_2 (cb ++ [h] = [])) by (by destruct cb).
  rewrite namei_cleaned_eq; [|by destruct cb|].
  2:{ apply Forall_app. split; [|by repeat constructor].
      apply clean_elems_Forall; [by repeat split|done|].
      pose proof (Split_free "/" "/" (basePath st) (or_introl eq_refl)) as Hs1.
      pose proof (Split_free "/" NUL (basePath st) (or_intror Hnul)) as Hs2.
      eapply Forall_impl; [apply Forall_and; split; [exact Hs1|exact Hs2]|].
      intros e [? ?] ? ?. by repeat split. }
  destruct (long_path _); [done|]. cbn [orb].
  rewrite walk_app. subst cb.
  rewrite (clean_walk t _ _ [] (Split "/" (basePath st))
             (if filepath.rooted (basePath st) then [] else wdir) dir);
    [|done|by intros ->|done|done].
  simpl. unfold is_dir in Hd.
  destruct (lookup dir t) as [[c|m]|]; [done| |done].
  destruct (long_name h); [done|].
  unfold step. by rewrite !bool_decide_eq_false_2 by done.
Qed.

Lemma plain_resolves (st : FileSystemStorage) (fs : FS) (dir : location) (h : string) :
  mounted st fs dir → plain_name h → fits st h →
  namei fs (filepath.Join (basePath st) h) = inr (dir ++ [h]).
Proof.
  intros Hm Hplain [Hname Hpath]%fits_short.
  by rewrite (plain_namei st fs dir h Hm Hplain), Hpath, Hname.
Qed.

(** Entries of one directory under different names do not touch. *)
Lemma lookup_put_sibling (dir : location) (h h' : string) (v : option node) (t : node) :
  h ≠ h' → lookup (dir ++ [h]) (put (dir ++ [h']) v t) = lookup (dir ++ [h]) t.
Proof.
  intros Hne. revert t. induction dir as [|c dir IH]; intros t.
  - simpl. destruct t as [c0|m]; [done|]. by rewrite lookup_partial_alter_ne.
  - rewrite <- !app_comm_cons. destruct t as [c0|m]; [done|].
    rewrite put_cons by (by destruct dir). simpl.
    rewrite lookup_alter_eq. destruct (m !! c) as [child|]; [|done]. simpl.
    apply IH.
Qed.

(** What a download delivers, by the entry the path leads to. *)
Lemma content_entry (st : FileSystemStorage) (hash : string) (fs : FS) (loc : location) :
  namei fs (filepath.Join (basePath st) hash) = inr loc →
  content st hash fs = match lookup loc (root fs) with
                       | Some (File c) => Some c
                       | _ => None
                       end.
Proof.
  intros Hn. unfold content, Get. rewrite (Open_entry _ _ _ Hn).
  destruct (lookup loc (root fs)) as [n|] eqn:Hl; [|done].
  unfold file_Stat, file_reader. cbn [fd_loc]. rewrite Hl. simpl. rewrite Hl.
  by destruct n.
Qed.

End mount_facts.

Module restart_facts.
Import os os_facts store_facts root_facts mount_facts.

(** Along a way that is there, to a directory that is there, [MkdirAll]
    makes nothing. *)
Lemma mkdir_walk_existing (t : node) (pos : location) (elems : list string)
  (loc : location) :
  walk t pos elems = inr loc → is_dir t loc = true →
  mkdir_walk t pos elems = (t, inr loc).
Proof.
  revert pos. induction elems as [|e rest IH]; intros pos Hw Hd; simpl in *.
  - by injection Hw as <-.
  - destruct (lookup pos t) as [[c|m]|] eqn:Hpos; [done| |done].
    destruct (long_name e); [done|].
    unfold step in Hw.
    destruct (bool_decide (e = "") || bool_decide (e = ".")); [by apply IH|].
    destruct (bool_decide (e = "..")); [by apply IH|].
    destruct (m !! e) as [child|] eqn:Hchild; [by apply IH|].
    exfalso.
    assert (Hnone : lookup (pos ++ [e]) t = None)
      by (by rewrite (lookup_child _ _ _ _ Hpos)).
    destruct rest as [|e' rest'].
    + injection Hw as <-. unfold is_dir in Hd. by rewrite Hnone in Hd.
    + simpl in Hw. by rewrite Hnone in Hw.
Qed.

(** [MkdirAll] leaves every file as it is, also when it fails. *)
Lemma mkdir_walk_files (t0 : node) (pos : location) (elems : list string)
  (loc : location) (c : list Byte.byte) :
  lookup loc t0 = Some (File c) →
  lookup loc (mkdir_walk t0 pos elems).1 = Some (File c).
Proof.
  revert t0 pos. induction elems as [|e rest IH]; intros t0 pos Hl; simpl; [done|].
  destruct (lookup pos t0) as [[c0|m]|] eqn:Hpos; [done| |done].
  destruct (long_name e); [done|].
  destruct (bool_decide (e = "") || bool_decide (e = ".")); [by apply IH|].
  destruct (bool_decide (e = "..")); [by apply IH|].
  destruct (m !! e) as [child|] eqn:Hchild; [by apply IH|].
  assert (Hnone : lookup (pos ++ [e]) t0 = None)
    by (by rewrite (lookup_child _ _ _ _ Hpos)).
  apply IH, lookup_put_other; [done|by rewrite Hnone|].
  intros ->. by rewrite Hnone in Hl.
Qed.

Lemma NewFileSystemStorage_existing (st : FileSystemStorage) (fs : FS) (dir : location) :
  mounted st fs dir → long_path (basePath st) = false →
  NewFileSystemStorage (basePath st) fs = (fs, inl st).
Proof.
  intros (Hne & Hnul & Hwalk & Hd) Hshort.
  unfold NewFileSystemStorage, MkdirAll.
  rewrite bool_decide_eq_false_2 by done. rewrite Hnul, Hshort.
  rewrite (mkdir_walk_existing _ _ _ dir Hwalk Hd).
  unfold is_dir in Hd. destruct (lookup dir (root fs)) as [[c|m]|]; [done| |done].
  by destruct fs, st.
Qed.

End restart_facts.

Section CacheDirProps.
Import os os_facts store_facts root_facts mount_facts restart_facts.

(** X7.  [Store] makes no directory and removes none, whatever the hash and
    the body and whether it fails or not: every location is a directory
    after the call exactly when it was one before, and the working directory
    is the same. *)
Theorem X7_store_keeps_directories (st : FileSystemStorage) (hash : string)
  (body : stream) (fs : FS) (q : location) :
  is_dir (root (Store st hash body fs).1) q = is_dir (root fs) q
  ∧ cwd (Store st hash body fs).1 = cwd fs.
Proof.
  destruct (Store_cases st hash body fs)
    as [[err ->]|(parent & e & _ & _ & Hnd & ->)]; [done|].
  destruct (fault body); simpl; by rewrite is_dir_put.
Qed.

Lemma plain_store (st : FileSystemStorage) (fs : FS) (dir : location) (h : string)
  (body : stream) :
  mounted st fs dir → plain_name h → fits st h →
  is_dir (root fs) (dir ++ [h]) = false →
  Store st h body fs =
    match fault body with
    | None => (set_entry (dir ++ [h]) (Some (File (data body))) fs, None)
    | Some err => (set_entry (dir ++ [h]) None fs,
                   Some (WrapError "failed to write file" err))
    end.
Proof.
  intros Hm Hplain Hfits Hfree. apply Store_at; [by apply plain_resolves| |done].
  by destruct Hm as (_ & _ & _ & Hd).
Qed.

Lemma content_set_entry (st : FileSystemStorage) (fs : FS) (dir : location)
  (h : string) (v : option node) :
  mounted st fs dir → plain_name h → fits st h →
  is_dir (root fs) (dir ++ [h]) = false →
  not_dir v →
  content st h (set_entry (dir ++ [h]) v fs)
  = match v with Some (File c) => Some c | _ => None end.
Proof.
  intros Hm Hplain Hfits Hfree Hv.
  assert (Hnd : not_dir (lookup (dir ++ [h]) (root fs))).
  { unfold is_dir in Hfree. by destruct (lookup _ (root fs)) as [[c|m]|]. }
  rewrite (content_entry st h _ (dir ++ [h])).
  - rewrite set_entry_lookup by (by destruct Hm as (_ & _ & _ & Hd)). done.
  - apply set_entry_namei; [done|done|by apply plain_resolves].
Qed.

(** X8.  Names in the cache directory do not touch.  With the cache
    directory in place, a [Store] under one plain name, whatever its body and
    whether it succeeds or fails, leaves what a download under any other
    plain name delivers as it was. *)
Theorem X8_other_names_untouched (st : FileSystemStorage) (fs : FS) (dir : location)
  (h h' : string) (body : stream) :
  mounted st fs dir → plain_name h → plain_name h' → h ≠ h' →
  content st h (Store st h' body fs).1 = content st h fs.
Proof.
  intros Hm Hh Hh' Hne.
  destruct (Store_cases st h' body fs)
    as [[err ->]|(parent & e & Hn2 & Hd & Hnd & ->)]; [done|].
  rewrite (plain_namei st fs dir h' Hm Hh') in Hn2.
  destruct (long_path _ || long_name h'); [done|].
  injection Hn2 as Hloc. rewrite <- Hloc in *.
  assert (Hgo : ∀ v, not_dir v →
            content st h (set_entry (dir ++ [h']) v fs) = content st h fs).
  { intros v Hv.
    assert (Hm' : mounted st (set_entry (dir ++ [h']) v fs) dir).
    { apply (mounted_same_dirs st fs); [done| |done].
      intros q Hq. simpl. by rewrite is_dir_put. }
    pose proof (plain_namei st fs dir h Hm Hh) as Hn.
    pose proof (plain_namei st _ dir h Hm' Hh) as Hn1.
    destruct (long_path _ || long_name h).
    - unfold content, Get, Open. by rewrite Hn, Hn1.
    - rewrite (content_entry st h _ (dir ++ [h]) Hn1).
      rewrite (content_entry st h fs (dir ++ [h]) Hn).
      simpl. by rewrite lookup_put_sibling. }
  destruct (fault body); simpl; by apply Hgo.
Qed.

(** X9.  [Store] follows [..] out of the cache directory.  With the cache
    directory in place at [dir], take a plain name [n] of at most [NAME_MAX]
    bytes, such that the path the store makes of the hash [../n] is shorter
    than [PATH_MAX] and the directory above [dir] has no directory of the
    name [n].  Then a [Store] of a whole body under the hash [../n] returns
    no error and writes the body to the entry [n] of the directory above
    [dir]. *)
Theorem X9_store_leaves_cache_directory (st : FileSystemStorage) (fs : FS)
  (dir : location) (n : string) (body : stream) :
  mounted st fs dir → plain_name n →
  (String.length n ≤ NAME_MAX)%nat →
  (String.length (filepath.Join (basePath st) ("../" +:+ n)) < PATH_MAX)%nat →
  is_dir (root fs) (removelast dir ++ [n]) = false →
  fault body = None →
  Store st ("../" +:+ n) body fs
  = (set_entry (removelast dir ++ [n]) (Some (File (data body))) fs, None).
Proof.
  intros Hm (H1 & H2 & H3 & Hslash & Hnul) Hname Hpath Hfree Hbody.
  assert (Hshort : long_name n = false)
    by (unfold long_name; by rewrite Nat.ltb_ge).
  pose proof Hm as (_ & _ & _ & Hd).
  pose proof (is_dir_removelast _ _ Hd) as Hup.
  rewrite (Store_at st _ body fs (removelast dir) n); [by rewrite Hbody| |done|done].
  apply (Join_resolves st fs dir); [done| | |].
  - rewrite path_facts.Contains_app, Hnul. reflexivity.
  - unfold long_path. by rewrite Nat.leb_gt.
  - change ("../" +:+ n) with (".." +:+ "/" +:+ n).
    rewrite Split_app_sep, (path_facts.Split_free_id n Hslash).
    change (strings.Split "/" "..") with [".."]. cbn [app].
    rewrite walk_cons by done.
    change (step dir "..") with (removelast dir).
    rewrite walk_cons by done.
    unfold step. by rewrite !bool_decide_eq_false_2 by done.
Qed.

(** X10.  Starting again changes nothing.  After [NewFileSystemStorage]
    succeeded on a base path, and after any calls of the store, a second
    [NewFileSystemStorage] on the same base path succeeds and leaves the disk
    exactly as it found it. *)
Theorem X10_restart_changes_nothing (base : string) (fs fs1 : FS)
  (st : FileSystemStorage) (cs : list store_call) :
  NewFileSystemStorage base fs = (fs1, inl st) →
  NewFileSystemStorage base (run_calls st fs1 cs) = (run_calls st fs1 cs, inl st).
Proof.
  intros Hnew.
  destruct (NewFileSystemStorage_short _ _ _ _ Hnew) as [Hbase Hshort].
  destruct (NewFileSystemStorage_mounted _ _ _ _ Hnew) as [dir Hm].
  rewrite <- Hbase in *.
  apply (NewFileSystemStorage_existing st _ dir); [|done].
  apply mounted_run_calls, Hm.
Qed.

(** X11.  [NewFileSystemStorage] changes no file: whatever the base path,
    and whether it succeeds or fails, every file of the disk is there
    afterwards with the same bytes. *)
Theorem X11_new_storage_keeps_files (base : string) (fs : FS) (loc : location)
  (c : list Byte.byte) :
  lookup loc (root fs) = Some (File c) →
  lookup loc (root (NewFileSystemStorage base fs).1) = Some (File c).
Proof.
  intros Hl. unfold NewFileSystemStorage, MkdirAll.
  case_bool_decide; [done|].
  destruct (strings.Contains base NUL); [done|].
  destruct (long_path base).
  - pose proof (mkdir_walk_files (root fs)
                  (if filepath.rooted base then [] else cwd fs)
                  (within_limit 0 (strings.Split "/" base)) loc c Hl) as Hk.
    destruct (mkdir_walk _ _ _) as [t [e|loc']]; [done|].
    by destruct (lookup loc' t) as [[c'|m]|].
  - pose proof (mkdir_walk_files (root fs)
                  (if filepath.rooted base then [] else cwd fs)
                  (strings.Split "/" base) loc c Hl) as Hk.
    destruct (mkdir_walk _ _ _) as [t [e|loc']]; [done|].
    by destruct (lookup loc' t) as [[c'|m]|].
Qed.

End CacheDirProps.

(** ** Uploads under plain names, queries, status *)

Section UploadProps.
Import os os_facts store_facts mount_facts strings_facts.
Context `{Decoders}.
Variable s : Server.

Lemma serve_upload (r : http.Request) (hash : string) (wd : World) :
  http.Method r = http.MethodPut →
  http.URL_Path r = "/v8/artifacts/" +:+ hash →
  http.Header_Get (http.ReqHeader r) "Authorization" = "Bearer " +:+ token s →
  http.Header_Get (http.ReqHeader r) "Content-Length" ≠ "" →
  serve (handleAuth s (λ W _, handleArtifact s)) r wd
  = match Store (storage s) hash (http.Body r) (fsys wd) with
    | (fs, None) =>
        (http.finishRequest
           (http.Encode (http.response_WriteHeader http.StatusAccepted http.new_response)
                        (upload_document hash)),
         {| fsys := fs;
            logged := logged wd ++ [LogRequest (http.Method r) (http.URL_Path r);
                                    LogResponse http.StatusAccepted "Accepted"] |})
    | (fs, Some err) =>
        (http.finishRequest
           (http.Error http.new_response "Failed to store artifact"
                       http.StatusInternalServerError),
         {| fsys := fs;
            logged := logged wd ++ [LogRequest (http.Method r) (http.URL_Path r);
                                    LogUploadFailed hash err;
                                    LogResponse http.StatusInternalServerError
                                                "Internal Server Error"] |})
    end.
Proof.
  intros Hm Hp Hauth Hcl. rewrite (serve_admits s _ r wd Hauth).
  unfold handleArtifact, uploadArtifact. rewrite Hm, Hp, TrimPrefix_app. simpl.
  rewrite bool_decide_eq_false_2 by done.
  destruct (Store _ _ _ _) as [fs [err|]]; simpl;
    unfold Printf, with_fs; simpl; by rewrite <- !app_assoc.
Qed.

(** X12.  An upload under a plain name goes through.  With the cache
    directory in place, take a plain name that fits (at most [NAME_MAX]
    bytes, its path shorter than [PATH_MAX]) and that is not the name of a
    directory in the cache directory.  An admitted PUT under it with a
    [Content-Length] header whose body arrives whole is answered with 202;
    afterwards a download under the name delivers the bytes of the body, and
    the cache directory is in place as before. *)
Theorem X12_plain_upload_accepted (r : http.Request) (h : string) (wd : World)
  (dir : location) :
  mounted (storage s) (fsys wd) dir → plain_name h → fits (storage s) h →
  is_dir (root (fsys wd)) (dir ++ [h]) = false →
  http.Method r = http.MethodPut →
  http.URL_Path r = "/v8/artifacts/" +:+ h →
  http.Header_Get (http.ReqHeader r) "Authorization" = "Bearer " +:+ token s →
  http.Header_Get (http.ReqHeader r) "Content-Length" ≠ "" →
  fault (http.Body r) = None →
  http.status (serve (handleAuth s (λ W _, handleArtifact s)) r wd).1
  = http.StatusAccepted
  ∧ content (storage s) h (fsys (serve (handleAuth s (λ W _, handleArtifact s)) r wd).2)
    = Some (data (http.Body r))
  ∧ mounted (storage s) (fsys (serve (handleAuth s (λ W _, handleArtifact s)) r wd).2)
            dir.
Proof.
  intros Hm Hplain Hfits Hfree Hput Hp Hauth Hcl Hbody.
  rewrite (serve_upload r h wd Hput Hp Hauth Hcl).
  rewrite (plain_store (storage s) (fsys wd) dir h (http.Body r))
    by done.
  rewrite Hbody. cbn [fst snd fsys]. split_and!.
  - done.
  - by rewrite (content_set_entry (storage s) (fsys wd) dir h).
  - pose proof (mounted_run_calls (storage s) (storage s)
                  [CallStore h (http.Body r)] (fsys wd) dir Hm) as Hm'.
    unfold run_calls in Hm'. simpl in Hm'.
    rewrite (plain_store (storage s) (fsys wd) dir h (http.Body r)) in Hm'
      by done.
    by rewrite Hbody in Hm'.
Qed.

(** X13.  An upload that breaks off takes the old artifact with it.  With
    the cache directory in place, take a plain name that fits (at most
    [NAME_MAX] bytes, its path shorter than [PATH_MAX]) and that is not the
    name of a directory in the cache directory.  An admitted PUT under it
    with a [Content-Length] header whose body stops with an error is
    answered with 500 and logged as a failed upload with the write error;
    afterwards a download under the name delivers nothing, whatever was
    stored there before. *)
Theorem X13_broken_upload_removes (r : http.Request) (h : string) (wd : World)
  (dir : location) (err : error) :
  mounted (storage s) (fsys wd) dir → plain_name h → fits (storage s) h →
  is_dir (root (fsys wd)) (dir ++ [h]) = false →
  http.Method r = http.MethodPut →
  http.URL_Path r = "/v8/artifacts/" +:+ h →
  http.Header_Get (http.ReqHeader r) "Authorization" = "Bearer " +:+ token s →
  http.Header_Get (http.ReqHeader r) "Content-Length" ≠ "" →
  fault (http.Body r) = Some err →
  http.status (serve (handleAuth s (λ W _, handleArtifact s)) r wd).1
  = http.StatusInternalServerError
  ∧ content (storage s) h (fsys (serve (handleAuth s (λ W _, handleArtifact s)) r wd).2)
    = None
  ∧ logged (serve (handleAuth s (λ W _, handleArtifact s)) r wd).2
    = logged wd ++ [LogRequest (http.Method r) (http.URL_Path r);
                    LogUploadFailed h (WrapError "failed to write file" err);
                    LogResponse http.StatusInternalServerError "Internal Server Error"].
Proof.
  intros Hm Hplain Hfits Hfree Hput Hp Hauth Hcl Hbody.
  rewrite (serve_upload r h wd Hput Hp Hauth Hcl).
  rewrite (plain_store (storage s) (fsys wd) dir h (http.Body r))
    by done.
  rewrite Hbody. cbn [fst snd fsys logged]. split_and!; [done| |done].
  by rewrite (content_set_entry (storage s) (fsys wd) dir h).
Qed.

(** X14.  The answer to a query depends on which hashes are asked for, not
    on their order or on how often one is named: two admitted queries whose
    lists have the same elements, on the same disk, get the same response. *)
Theorem X14_query_ignores_order (r1 r2 : http.Request) (req1 req2 : ArtifactQueryRequest)
  (wd1 wd2 : World) :
  http.Method r1 = http.MethodPost → http.Method r2 = http.MethodPost →
  http.Header_Get (http.ReqHeader r1) "Authorization" = "Bearer " +:+ token s →
  http.Header_Get (http.ReqHeader r2) "Authorization" = "Bearer " +:+ token s →
  DecodeQuery (http.Body r1) = inl req1 →
  DecodeQuery (http.Body r2) = inl req2 →
  (∀ h, h ∈ Hashes req1 ↔ h ∈ Hashes req2) →
  fsys wd1 = fsys wd2 →
  (serve (handleAuth s (λ W _, queryArtifacts s)) r1 wd1).1
  = (serve (handleAuth s (λ W _, queryArtifacts s)) r2 wd2).1.
Proof.
  intros Hm1 Hm2 Ha1 Ha2 Hd1 Hd2 Hsame Hfs.
  rewrite (serve_admits s _ r1 wd1 Ha1), (serve_admits s _ r2 wd2 Ha2).
  unfold queryArtifacts. rewrite Hm1, Hm2, Hd1, Hd2. simpl. rewrite Hfs.
  do 4 f_equal. apply map_eq. intros h. rewrite !query_loop_lookup.
  destruct (decide (h ∈ Hashes req1)) as [Hin|Hin].
  - by rewrite decide_True by (by apply Hsame).
  - by rewrite decide_False by (by rewrite <- Hsame).
Qed.

(** X15.  An admitted GET on the status route is answered with 200 and the
    document [{status: enabled}], whatever is on the disk; the handler never
    sets a status itself, and the response line of the log says 200 from
    the code the logging writer starts with.  The disk is not touched. *)
Theorem X15_status_enabled (r : http.Request) (wd : World) :
  http.Method r = http.MethodGet →
  http.Header_Get (http.ReqHeader r) "Authorization" = "Bearer " +:+ token s →
  http.status (serve (handleAuth s (λ W _, getStatus)) r wd).1 = http.StatusOK
  ∧ http.written (serve (handleAuth s (λ W _, getStatus)) r wd).1
    = [http.JSONText (json.Object [("status", json.Str "enabled")])]
  ∧ (serve (handleAuth s (λ W _, getStatus)) r wd).2
    = {| fsys := fsys wd;
         logged := logged wd ++ [LogRequest (http.Method r) (http.URL_Path r);
                                 LogResponse http.StatusOK "OK"] |}.
Proof.
  intros Hm Hauth. rewrite (serve_admits s _ r wd Hauth).
  unfold getStatus. rewrite Hm. simpl. split_and!; [done|done|].
  unfold Printf. simpl. by rewrite <- app_assoc.
Qed.

(** X16.  The server makes no directory and removes none.  Whatever
    requests arrive on the four routes, in whatever order, admitted or not:
    every location is a directory afterwards exactly when it was one before,
    the working directory is the same, and a cache directory that was in
    place is in place. *)
Theorem X16_requests_keep_directories (wd : World)
  (calls : list (HandlerFunc * http.Request)) :
  Forall (λ c, ∃ pattern, (pattern, c.1) ∈ routes s) calls →
  (∀ q, is_dir (root (fsys (serve_all wd calls))) q = is_dir (root (fsys wd)) q)
  ∧ cwd (fsys (serve_all wd calls)) = cwd (fsys wd)
  ∧ (∀ dir, mounted (storage s) (fsys wd) dir →
            mounted (storage s) (fsys (serve_all wd calls)) dir).
Proof.
  intros Hcalls.
  assert (Hkeep : (∀ q, is_dir (root (fsys (serve_all wd calls))) q
                        = is_dir (root (fsys wd)) q)
                  ∧ cwd (fsys (serve_all wd calls)) = cwd (fsys wd)).
  { unfold serve_all. revert wd.
    induction Hcalls as [|[h r] calls [pattern Hin] _ IH]; intros wd; [done|].
    cbn [foldl fst snd]. destruct (IH (serve h r wd).2) as [IHd IHc].
    assert (Hone : (∀ q, is_dir (root (fsys (serve h r wd).2)) q
                         = is_dir (root (fsys wd)) q)
                   ∧ cwd (fsys (serve h r wd).2) = cwd (fsys wd)).
    { destruct (route_disk s pattern h r wd Hin) as [->|[hash ->]]; [done|].
      pose proof (run_call_dirs (storage s) (fsys wd)
                    (CallStore hash (http.Body r))) as Hrun.
      split; [intros q; apply Hrun|apply (Hrun [])]. }
    destruct Hone as [Hd Hc]. split.
    - intros q. by rewrite IHd, Hd.
    - by rewrite IHc, Hc. }
  destruct Hkeep as [Hd Hc]. split_and!; [done|done|].
  intros dir. apply mounted_same_dirs; [done|]. intros q. by rewrite Hd.
Qed.

(** X17.  A download under a hash whose path is a directory.  An admitted
    GET is answered with 200 and the size of the directory as
    [Content-Length], but not one byte is written: reading the directory
    fails, and the failure goes to the log as a streaming error, between the
    request line and a response line that says 200. *)
Theorem X17_directory_download (r : http.Request) (hash : string) (wd : World)
  (info : FileInfo) :
  http.Method r = http.MethodGet →
  http.URL_Path r = "/v8/artifacts/" +:+ hash →
  http.Header_Get (http.ReqHeader r) "Authorization" = "Bearer " +:+ token s →
  Stat (filepath.Join (basePath (storage s)) hash) (fsys wd) = inl info →
  IsDir info = true →
  http.status (serve (handleAuth s (λ W _, handleArtifact s)) r wd).1 = http.StatusOK
  ∧ http.written (serve (handleAuth s (λ W _, handleArtifact s)) r wd).1 = []
  ∧ http.Header_Get
      (http.sentHeader (serve (handleAuth s (λ W _, handleArtifact s)) r wd).1)
      "Content-Length" = pretty (os.Size info)
  ∧ ∃ err, logged (serve (handleAuth s (λ W _, handleArtifact s)) r wd).2
           = logged wd ++ [LogRequest (http.Method r) (http.URL_Path r);
                           LogStreamError hash err;
                           LogResponse http.StatusOK "OK"].
Proof.
  intros Hm Hp Hauth Hstat Hdir.
  unfold Stat in Hstat.
  destruct (namei (fsys wd) _) as [e|loc] eqn:Hn; [done|].
  destruct (lookup loc (root (fsys wd))) as [[c|m]|] eqn:Hl; [| |done].
  { injection Hstat as <-. done. }
  injection Hstat as <-.
  rewrite (serve_admits s _ r wd Hauth).
  unfold handleArtifact, downloadArtifact. rewrite Hm, Hp, TrimPrefix_app. simpl.
  unfold Get. rewrite (Open_entry _ _ _ Hn), Hl.
  unfold file_Stat, file_reader. cbn [fd_loc]. rewrite Hl. simpl. rewrite Hl. simpl.
  split_and!; [done|done|done|].
  eexists. unfold Printf. simpl. by rewrite <- !app_assoc.
Qed.


(** X19.  What a download delivers.  When [Get] opens the entry of the
    hash and its reader can be read to the end, an admitted GET is answered
    with 200, exactly those bytes, and their number as [Content-Length];
    in every other case it is answered with 404, or nothing is written. *)
Theorem X19_download_delivers_content (r : http.Request) (hash : string) (wd : World) :
  http.Method r = http.MethodGet →
  http.URL_Path r = "/v8/artifacts/" +:+ hash →
  http.Header_Get (http.ReqHeader r) "Authorization" = "Bearer " +:+ token s →
  match content (storage s) hash (fsys wd) with
  | Some c =>
      http.status (serve (handleAuth s (λ W _, handleArtifact s)) r wd).1 = http.StatusOK
      ∧ http.raw_body
          (http.written (serve (handleAuth s (λ W _, handleArtifact s)) r wd).1)
        = Some c
      ∧ http.Header_Get
          (http.sentHeader (serve (handleAuth s (λ W _, handleArtifact s)) r wd).1)
          "Content-Length" = pretty (Z.of_nat (length c))
  | None =>
      http.status (serve (handleAuth s (λ W _, handleArtifact s)) r wd).1
      = http.StatusNotFound
      ∨ http.written (serve (handleAuth s (λ W _, handleArtifact s)) r wd).1 = []
  end.
Proof.
  intros Hm Hp Hauth. rewrite (serve_admits s _ r wd Hauth).
  unfold handleArtifact, downloadArtifact. rewrite Hm, Hp, TrimPrefix_app. simpl.
  unfold content, Get.
  destruct (Open _ (fsys wd)) as [f|e]; [|destruct (IsNotExist e); by left].
  unfold file_Stat, file_reader.
  destruct (lookup (fd_loc f) (root (fsys wd))) as [[c|m]|] eqn:Hl; simpl.
  - rewrite Hl. simpl. unfold http.io_Copy. cbn [data fault].
    destruct c as [|b bs]; simpl; [done|]. by rewrite app_nil_r.
  - rewrite Hl. simpl. by right.
  - by left.
Qed.

End UploadProps.

(** ** The further properties on the example disk *)

Lemma disk0_mounted : mounted demo.store demo.disk0 ["turbo-cache"].
Proof. unfold mounted. split_and!; [done|..]; vm_compute; reflexivity. Qed.

Lemma disk1_mounted : mounted demo.store demo.disk1 ["turbo-cache"].
Proof. unfold mounted. split_and!; [done|..]; vm_compute; reflexivity. Qed.

Lemma abc123_plain : plain_name "abc123".
Proof. unfold plain_name. split_and!; done. Qed.

Lemma zzz999_plain : plain_name "zzz999".
Proof. unfold plain_name. split_and!; done. Qed.

Lemma abc123_fits : fits demo.store "abc123".
Proof. split; [apply Nat.leb_le|apply Nat.ltb_lt]; reflexivity. Qed.


Lemma X2_witness :
  http.status (serve demo.artifact demo.get_abc demo.world1).1 = http.StatusOK
  ↔ http.status (serve demo.artifact demo.head_abc demo.world1).1 = http.StatusOK.
Proof.
  exact (proj1 (X2_head_and_get_agree demo.server demo.get_abc demo.head_abc "abc123"
                  demo.world1 eq_refl eq_refl eq_refl eq_refl eq_refl eq_refl)).
Defined.

Lemma X3_witness :
  fsys (serve demo.artifact demo.get_abc demo.world1).2 = demo.disk1.
Proof.
  apply (@X3_only_put_writes plain_json.decoders demo.server "/v8/artifacts/"
           demo.artifact demo.get_abc demo.world1).
  - unfold routes. do 2 apply list_elem_of_further. apply list_elem_of_here.
  - right. discriminate.
Defined.

Lemma X4_witness :
  http.status
    (serve demo.artifact
           (demo.request "DELETE" "/v8/artifacts/abc123" demo.bearer demo.nothing)
           demo.world1).1
  = http.StatusMethodNotAllowed.
Proof.
  apply (@X4_method_not_allowed plain_json.decoders demo.server
           (demo.request "DELETE" "/v8/artifacts/abc123" demo.bearer demo.nothing)
           demo.world1 eq_refl); discriminate.
Defined.

Lemma X5_witness :
  @DecodeEvents plain_json.decoders_with_events
     (http.Body (demo.request "POST" "/v8/artifacts/events" demo.bearer
                              (demo.whole (plain_json.events_text [hit; miss]))))
  = inl [hit; miss]
  ∧ logged
      (serve (handleAuth demo.server
                (λ W _, @recordEvents plain_json.decoders_with_events W _))
             (demo.request "POST" "/v8/artifacts/events" demo.bearer
                           (demo.whole (plain_json.events_text [hit; miss])))
             demo.start).2
    = [LogRequest "POST" "/v8/artifacts/events";
       LogCacheEvent "abc123" "LOCAL" "HIT" float_zero;
       LogCacheEvent "zzz999" "REMOTE" "MISS" float_zero;
       LogResponse http.StatusOK "OK"].
Proof.
  assert (Hd : @DecodeEvents plain_json.decoders_with_events
                 (http.Body (demo.request "POST" "/v8/artifacts/events" demo.bearer
                               (demo.whole (plain_json.events_text [hit; miss]))))
               = inl [hit; miss]) by (vm_compute; reflexivity).
  split; [exact Hd|].
  pose proof (@X5_events_are_logged plain_json.decoders_with_events demo.server
                (demo.request "POST" "/v8/artifacts/events" demo.bearer
                              (demo.whole (plain_json.events_text [hit; miss])))
                demo.start eq_refl eq_refl) as Hx.
  rewrite Hd in Hx. destruct Hx as (_ & _ & ->). reflexivity.
Defined.

Lemma X6_witness :
  http.status (serve demo.artifact demo.put_abc demo.start).1 = http.StatusAccepted
  ∧ http.written (serve demo.artifact demo.put_abc demo.start).1
    = [http.JSONText (upload_document "abc123")].
Proof.
  assert (Hs : http.status (serve demo.artifact demo.put_abc demo.start).1
               = http.StatusAccepted) by (vm_compute; reflexivity).
  split; [exact Hs|].
  exact (proj2 (proj2 (proj2 (proj2
           (X6_accepted_upload demo.server demo.put_abc "abc123" demo.start
              eq_refl Hs))))).
Defined.

Lemma X8_witness :
  content demo.store "abc123" demo.disk1 = Some (demo.bytes "hello")
  ∧ content demo.store "abc123"
      (Store demo.store "zzz999" (demo.broken "ot") demo.disk1).1
    = content demo.store "abc123" demo.disk1.
Proof.
  split; [vm_compute; reflexivity|].
  apply (X8_other_names_untouched demo.store demo.disk1 ["turbo-cache"]
           "abc123" "zzz999" (demo.broken "ot")
           disk1_mounted abc123_plain zzz999_plain).
  discriminate.
Defined.

Lemma X9_witness :
  Store demo.store "../zzz999" (demo.whole "out") demo.disk0
  = (os.set_entry ["zzz999"] (Some (os.File (demo.bytes "out"))) demo.disk0, None).
Proof.
  apply (X9_store_leaves_cache_directory demo.store demo.disk0 ["turbo-cache"]
           "zzz999" (demo.whole "out") disk0_mounted zzz999_plain);
    [apply Nat.leb_le; reflexivity|apply Nat.ltb_lt; reflexivity|reflexivity..].
Defined.

Lemma X10_witness :
  NewFileSystemStorage "./turbo-cache" demo.blank = (demo.disk0, inl demo.store)
  ∧ NewFileSystemStorage "./turbo-cache"
      (run_calls demo.store demo.disk0 [CallStore "abc123" (demo.whole "hello")])
    = (run_calls demo.store demo.disk0 [CallStore "abc123" (demo.whole "hello")],
       inl demo.store).
Proof.
  assert (Hn : NewFileSystemStorage "./turbo-cache" demo.blank
               = (demo.disk0, inl demo.store)) by (vm_compute; reflexivity).
  split; [exact Hn|].
  exact (X10_restart_changes_nothing "./turbo-cache" demo.blank demo.disk0 demo.store
           [CallStore "abc123" (demo.whole "hello")] Hn).
Defined.

Lemma X11_witness :
  os.lookup ["turbo-cache"; "abc123"] (os.root demo.disk1)
  = Some (os.File (demo.bytes "hello"))
  ∧ os.lookup ["turbo-cache"; "abc123"]
      (os.root (NewFileSystemStorage "turbo-cache/abc123/below" demo.disk1).1)
    = Some (os.File (demo.bytes "hello")).
Proof.
  assert (Hl : os.lookup ["turbo-cache"; "abc123"] (os.root demo.disk1)
               = Some (os.File (demo.bytes "hello"))) by (vm_compute; reflexivity).
  split; [exact Hl|].
  exact (X11_new_storage_keeps_files "turbo-cache/abc123/below" demo.disk1
           ["turbo-cache"; "abc123"] (demo.bytes "hello") Hl).
Defined.

Lemma X12_witness :
  http.status (serve demo.artifact demo.put_abc demo.start).1 = http.StatusAccepted
  ∧ content demo.store "abc123" (fsys (serve demo.artifact demo.put_abc demo.start).2)
    = Some (demo.bytes "hello").
Proof.
  destruct (X12_plain_upload_accepted demo.server demo.put_abc "abc123" demo.start
              ["turbo-cache"] disk0_mounted abc123_plain abc123_fits)
    as (Hs & Hc & _); [reflexivity..|discriminate|reflexivity|].
  split; [exact Hs|exact Hc].
Defined.

Lemma X13_witness :
  content demo.store "abc123" demo.disk1 = Some (demo.bytes "hello")
  ∧ http.status
      (serve demo.artifact
             (demo.request "PUT" "/v8/artifacts/abc123" (demo.with_length "5")
                           (demo.broken "he"))
             demo.world1).1
    = http.StatusInternalServerError
  ∧ content demo.store "abc123"
      (fsys (serve demo.artifact
                   (demo.request "PUT" "/v8/artifacts/abc123" (demo.with_length "5")
                                 (demo.broken "he"))
                   demo.world1).2)
    = None.
Proof.
  split; [vm_compute; reflexivity|].
  destruct (X13_broken_upload_removes demo.server
              (demo.request "PUT" "/v8/artifacts/abc123" (demo.with_length "5")
                            (demo.broken "he"))
              "abc123" demo.world1 ["turbo-cache"] (ErrorString "unexpected EOF")
              disk1_mounted abc123_plain abc123_fits)
    as (Hs & Hc & _); [reflexivity..|discriminate|reflexivity|].
  split; [exact Hs|exact Hc].
Defined.

Lemma X14_witness :
  (serve demo.query (demo.post_query ["abc123"; "zzz999"]) demo.world1).1
  = (serve demo.query (demo.post_query ["zzz999"; "abc123"; "zzz999"]) demo.world1).1.
Proof.
  apply (@X14_query_ignores_order plain_json.decoders demo.server
           (demo.post_query ["abc123"; "zzz999"])
           (demo.post_query ["zzz999"; "abc123"; "zzz999"])
           {| Hashes := ["abc123"; "zzz999"] |}
           {| Hashes := ["zzz999"; "abc123"; "zzz999"] |}
           demo.world1 demo.world1);
    try reflexivity; try (vm_compute; reflexivity).
  intros h. simpl. rewrite !elem_of_cons, elem_of_nil. tauto.
Defined.

Lemma X15_witness :
  http.written
    (serve (handleAuth demo.server (λ W _, getStatus))
           (demo.request "GET" "/v8/artifacts/status" demo.bearer demo.nothing)
           demo.world1).1
  = [http.JSONText (json.Object [("status", json.Str "enabled")])].
Proof.
  exact (proj1 (proj2
           (X15_status_enabled demo.server
              (demo.request "GET" "/v8/artifacts/status" demo.bearer demo.nothing)
              demo.world1 eq_refl eq_refl))).
Defined.

Lemma X16_witness :
  os.is_dir
    (os.root (fsys (serve_all demo.start
                      [(demo.artifact, demo.put_abc); (demo.artifact, demo.get_abc);
                       (demo.query, demo.post_query ["abc123"])])))
    ["turbo-cache"]
  = true.
Proof.
  assert (Hcalls : Forall (λ c, ∃ pattern,
                             (pattern, c.1) ∈ @routes plain_json.decoders demo.server)
                     [(demo.artifact, demo.put_abc); (demo.artifact, demo.get_abc);
                      (demo.query, demo.post_query ["abc123"])]).
  { repeat constructor.
    - exists "/v8/artifacts/". unfold routes.
      do 2 apply list_elem_of_further. apply list_elem_of_here.
    - exists "/v8/artifacts/". unfold routes.
      do 2 apply list_elem_of_further. apply list_elem_of_here.
    - exists "/v8/artifacts". unfold routes.
      do 3 apply list_elem_of_further. apply list_elem_of_here. }
  rewrite (proj1 (@X16_requests_keep_directories plain_json.decoders demo.server
                    demo.start _ Hcalls)).
  reflexivity.
Defined.

Lemma X17_witness :
  os.Stat (filepath.Join (basePath demo.store) "") demo.disk1
  = inl (os.MkFileInfo os.dir_size true)
  ∧ http.status (serve demo.artifact demo.get_root demo.world1).1 = http.StatusOK
  ∧ http.written (serve demo.artifact demo.get_root demo.world1).1 = [].
Proof.
  assert (Hs : os.Stat (filepath.Join (basePath demo.store) "") demo.disk1
               = inl (os.MkFileInfo os.dir_size true)) by (vm_compute; reflexivity).
  split; [exact Hs|].
  destruct (X17_directory_download demo.server demo.get_root "" demo.world1
              (os.MkFileInfo os.dir_size true) eq_refl eq_refl eq_refl Hs eq_refl)
    as (H1 & H2 & _).
  split; [exact H1|exact H2].
Defined.


Lemma X19_witness :
  content demo.store "abc123" demo.disk1 = Some (demo.bytes "hello")
  ∧ http.raw_body (http.written (serve demo.artifact demo.get_abc demo.world1).1)
    = Some (demo.bytes "hello").
Proof.
  assert (Hc : content demo.store "abc123" demo.disk1 = Some (demo.bytes "hello"))
    by (vm_compute; reflexivity).
  split; [exact Hc|].
  pose proof (X19_download_delivers_content demo.server demo.get_abc "abc123"
                demo.world1 eq_refl eq_refl eq_refl) as Hx.
  change (content (storage demo.server) "abc123" (fsys demo.world1))
    with (content demo.store "abc123" demo.disk1) in Hx.
  rewrite Hc in Hx. exact (proj1 (proj2 Hx)).
Defined.
